(** * geo-ai-explorer: the result-processing and layer-management pipeline

    A shallow embedding of [src/app.js]: the Overpass query normalisation of
    [fetchOverpass], the tag classifier [getCategoryFromTags], the taxonomy
    [CATEGORIES], the geometry resolver [getCentroid], the layer registry
    [layers] with its removal helpers, the legend ([initLegend],
    [updateLegend]) and the orchestrator [renderData] with the tail of the
    send-button handler. *)

From Stdlib Require Import String Ascii List Bool Arith NArith ZArith Lia.
From Stdlib Require Import DecimalString DecimalN.
From Stdlib Require Import PrimFloat Uint63.
Import ListNotations.
Open Scope string_scope.
Open Scope list_scope.

Set Implicit Arguments.

(** ** Query text

    The query handed to [fetchOverpass] is a JavaScript string, that is a
    sequence of UTF-16 code units.  [trim] and the regular expression class
    [\s] depend on code units above 255, so the query text is a list of code
    units rather than a byte string. *)

Module Js.

Definition code_unit := N.
Definition jsstring := list code_unit.

(** A string literal of the source, as code units. *)
Definition str (s : string) : jsstring :=
  map N_of_ascii (list_ascii_of_string s).

(** ECMAScript WhiteSpace and LineTerminator: what [String.prototype.trim]
    strips and what [\s] matches. *)
Definition is_ws (c : code_unit) : bool :=
  ((9 <=? c) && (c <=? 13) || (c =? 32) || (c =? 160) || (c =? 5760)
   || (8192 <=? c) && (c <=? 8202) || (c =? 8232) || (c =? 8233)
   || (c =? 8239) || (c =? 8287) || (c =? 12288) || (c =? 65279))%N.

Fixpoint trimStart (s : jsstring) : jsstring :=
  match s with
  | c :: s' => if is_ws c then trimStart s' else s
  | [] => []
  end.

Definition trimEnd (s : jsstring) : jsstring := rev (trimStart (rev s)).

Definition trim (s : jsstring) : jsstring := trimEnd (trimStart s).

(** [strip_prefix p s] is [Some t] when [s = p ++ t]. *)
Fixpoint strip_prefix (p s : jsstring) : option jsstring :=
  match p, s with
  | [], _ => Some s
  | a :: p', b :: s' => if (a =? b)%N then strip_prefix p' s' else None
  | _ :: _, [] => None
  end.

Definition startsWith (p s : jsstring) : bool :=
  match strip_prefix p s with Some _ => true | None => false end.

Fixpoint includes (p s : jsstring) : bool :=
  startsWith p s
  || match s with [] => false | _ :: s' => includes p s' end.

(** [s.replace(pat, rep)] with a string pattern: the first occurrence only. *)
Fixpoint replace_str (pat rep s : jsstring) : jsstring :=
  match strip_prefix pat s with
  | Some t => rep ++ t
  | None => match s with [] => [] | c :: s' => c :: replace_str pat rep s' end
  end.

(** A regular expression of the source is embedded as its matcher at one
    position: given the input that remains there, the length of the match
    that starts there, if any. *)
Definition regex := jsstring -> option nat.

(** [re.test] / [s.match(re)] being non-null: is there a match anywhere,
    scanning the start positions left to right. *)
Fixpoint re_test (re : regex) (s : jsstring) : bool :=
  match re s with
  | Some _ => true
  | None => match s with [] => false | _ :: s' => re_test re s' end
  end.

(** [s.replace(re, rep)] without the [g] flag: the leftmost match only. *)
Fixpoint re_replace (re : regex) (rep s : jsstring) : jsstring :=
  match re s with
  | Some n => rep ++ skipn n s
  | None => match s with [] => [] | c :: s' => c :: re_replace re rep s' end
  end.

(** [s.replace(re, rep)] with the [g] flag: after a match the scan goes on
    behind it (one code unit further after an empty match).  [fuel] bounds
    the number of start positions tried. *)
Fixpoint re_replace_all_from (fuel : nat) (re : regex) (rep s : jsstring)
  : jsstring :=
  match fuel with
  | 0 => s
  | S fuel' =>
      match re s with
      | Some 0 =>
          rep ++ match s with
                 | [] => []
                 | c :: s' => c :: re_replace_all_from fuel' re rep s'
                 end
      | Some n => rep ++ re_replace_all_from fuel' re rep (skipn n s)
      | None =>
          match s with
          | [] => []
          | c :: s' => c :: re_replace_all_from fuel' re rep s'
          end
      end
  end.

Definition re_replace_all (re : regex) (rep s : jsstring) : jsstring :=
  re_replace_all_from (S (length s)) re rep s.

(** A regular expression that ends in [$] and matches no empty string:
    every match runs to the end of the input. *)
Definition anchored (re : regex) : Prop :=
  forall r n, re r = Some n -> n = length r /\ n <> 0.

(** No white space at the start, and none at the end. *)
Definition lead_ok (s : jsstring) : bool :=
  match s with [] => true | c :: _ => negb (is_ws c) end.

Definition tail_ok (s : jsstring) : bool := lead_ok (rev s).

Definition endsWith (p s : jsstring) : bool := startsWith (rev p) (rev s).

End Js.

(** ** Query normalisation ([fetchOverpass], before the network call) *)

Module Normalize.
Import Js.

(** [/;out body;?$/]: [;out body], then an optional [;], then the end of
    the input. *)
Definition re_out_body : regex := fun r =>
  match strip_prefix (str ";out body") r with
  | Some [] => Some 9
  | Some [c] => if (c =? 59)%N then Some 10 else None
  | _ => None
  end.

(** [/\);\s*\)/]: [);], any white space, [)].  The white space is taken
    greedily; a [)] is no white space, so nothing is gained by giving some
    of it back. *)
Definition re_union_close : regex := fun r =>
  match r with
  | a :: b :: r' =>
      if ((a =? 41) && (b =? 59))%N then
        match trimStart r' with
        | c :: _ =>
            if (c =? 41)%N
            then Some (3 + (length r' - length (trimStart r')))
            else None
        | [] => None
        end
      else None
  | _ => None
  end.

(** [/\);$/]: [);] at the end of the input. *)
Definition re_close_end : regex := fun r =>
  match r with
  | [a; b] => if ((a =? 41) && (b =? 59))%N then Some 2 else None
  | _ => None
  end.

Definition OUT_JSON : jsstring := str "[out:json]".
Definition TIMEOUT_OPEN : jsstring := str "[timeout:".

(** Lines 64-71: trim, then the [[out:json]] header with its timeout. *)
Definition add_header (query : jsstring) : jsstring :=
  let fullQuery := trim query in
  if negb (startsWith OUT_JSON fullQuery) then
    str "[out:json][timeout:25];" ++ fullQuery
  else if negb (includes TIMEOUT_OPEN fullQuery) then
    replace_str OUT_JSON (str "[out:json][timeout:25]") fullQuery
  else fullQuery.

(** Line 75. *)
Definition out_geom (fullQuery : jsstring) : jsstring :=
  re_replace_all re_out_body (str ";out geom;") fullQuery.

(** Lines 78-80. *)
Definition add_limit (fullQuery : jsstring) : jsstring :=
  if negb (re_test re_union_close fullQuery) then
    re_replace re_close_end (str ");out geom 500;") fullQuery
  else fullQuery.

(** The text that [fetchOverpass] posts for [query]. *)
Definition normalize (query : jsstring) : jsstring :=
  add_limit (out_geom (add_header query)).

(** What the normalisation has established once the header is in place:
    the text starts with [[out:json]], has a [[timeout:] somewhere, and does
    not end in white space. *)
Definition headed (s : jsstring) : Prop :=
  startsWith OUT_JSON s = true
  /\ includes TIMEOUT_OPEN s = true
  /\ tail_ok s = true.

End Normalize.

(** ** JavaScript values and objects *)

Module Value.

(** The own string-keyed properties of a JavaScript object, in insertion
    order (the order of [Object.entries] and [Object.values]; none of the
    keys used here is an integer index, which would be listed first). *)
Definition obj (A : Type) := list (string * A).

Fixpoint obj_get {A} (o : obj A) (k : string) : option A :=
  match o with
  | [] => None
  | (k', v) :: o' => if (k' =? k)%string then Some v else obj_get o' k
  end.

(** [o[k] = v]: an existing key keeps its place, a new one goes last. *)
Fixpoint obj_set {A} (o : obj A) (k : string) (v : A) : obj A :=
  match o with
  | [] => [(k, v)]
  | (k', v') :: o' =>
      if (k' =? k)%string then (k', v) :: o' else (k', v') :: obj_set o' k v
  end.

(** [delete o[k]]. *)
Fixpoint obj_delete {A} (o : obj A) (k : string) : obj A :=
  match o with
  | [] => []
  | (k', v') :: o' =>
      if (k' =? k)%string then obj_delete o' k else (k', v') :: obj_delete o' k
  end.

Definition obj_values {A} (o : obj A) : list A := map snd o.
Definition obj_keys {A} (o : obj A) : list string := map fst o.

(** The values a feature's [properties] can hold. *)
#[local] Unset Elimination Schemes.
Inductive jsval : Type :=
| JUndefined
| JNull
| JBool (b : bool)
| JNum (x : float)
| JStr (s : string)
| JObj (fields : obj jsval).
#[local] Set Elimination Schemes.

(** ToBoolean. *)
Definition truthy (v : jsval) : bool :=
  match v with
  | JUndefined | JNull => false
  | JBool b => b
  | JNum x => negb (PrimFloat.eqb x 0 || PrimFloat.is_nan x)
  | JStr s => negb (s =? "")%string
  | JObj _ => true
  end.

(** [a || b]. *)
Definition or_else (a b : jsval) : jsval := if truthy a then a else b.

(** [v.k] on a value that is neither null nor undefined; the primitives have
    none of the property names read here. *)
Definition get (v : jsval) (k : string) : jsval :=
  match v with
  | JObj o => match obj_get o k with Some x => x | None => JUndefined end
  | _ => JUndefined
  end.

(** [v?.k]. *)
Definition get_opt (v : jsval) (k : string) : jsval :=
  match v with
  | JUndefined | JNull => JUndefined
  | _ => get v k
  end.

(** [v === "s"] for a string literal [s]. *)
Definition is_str (v : jsval) (s : string) : bool :=
  match v with
  | JStr t => (t =? s)%string
  | _ => false
  end.

(** Number to string for the integers printed here (a length, a time in
    milliseconds). *)
Definition decimal_nat (n : nat) : string :=
  NilEmpty.string_of_uint (Nat.to_uint n).
Definition decimal_N (n : N) : string :=
  NilEmpty.string_of_uint (N.to_uint n).

End Value.

(** ** The taxonomy and the tag classifier *)

Module Taxonomy.
Import Value.

Definition getCategoryFromTags (tags : jsval) : string :=
  if negb (truthy tags) then "poi"
  (* Tourism *)
  else if is_str (get tags "tourism") "museum" then "museum"
  else if is_str (get tags "tourism") "hotel" then "hotel"
  else if is_str (get tags "tourism") "hostel" then "hostel"
  else if is_str (get tags "tourism") "viewpoint" then "viewpoint"
  (* Amenities *)
  else if is_str (get tags "amenity") "cafe" then "cafe"
  else if is_str (get tags "amenity") "restaurant" then "restaurant"
  else if is_str (get tags "amenity") "hospital" then "hospital"
  else if is_str (get tags "amenity") "school" then "school"
  else if is_str (get tags "amenity") "pharmacy" then "pharmacy"
  else if is_str (get tags "amenity") "library" then "library"
  else if is_str (get tags "amenity") "bank" then "bank"
  else if is_str (get tags "amenity") "bar" then "bar"
  else if is_str (get tags "amenity") "university" then "university"
  else if is_str (get tags "amenity") "parking" then "parking"
  (* Shops *)
  else if is_str (get tags "shop") "supermarket" then "supermarket"
  else if is_str (get tags "shop") "bakery" then "bakery"
  else if is_str (get tags "shop") "hairdresser" then "hairdresser"
  (* Leisure *)
  else if is_str (get tags "leisure") "park" then "park"
  else if is_str (get tags "leisure") "garden" then "garden"
  else if is_str (get tags "leisure") "sports_centre" then "sports_centre"
  else if is_str (get tags "leisure") "pitch" then "pitch"
  else if is_str (get tags "leisure") "playground" then "playground"
  else if is_str (get tags "leisure") "dog_park" then "dog_park"
  (* Historic *)
  else if is_str (get tags "historic") "monument" then "monument"
  (* Railway *)
  else if is_str (get tags "railway") "station" then "station"
  else "poi".

Record category_data := {
  color : string;
  label : string;
  tags : list string
}.

Definition CATEGORIES : obj category_data := [
  ("restaurant", {| color := "#E76F51"; label := "Restaurants"; tags := ["amenity=restaurant"] |});
  ("cafe", {| color := "#F4A261"; label := "Cafes"; tags := ["amenity=cafe"] |});
  ("bar", {| color := "#E63946"; label := "Bars"; tags := ["amenity=bar"] |});
  ("bakery", {| color := "#C19A6B"; label := "Bakeries"; tags := ["shop=bakery"] |});
  ("school", {| color := "#3A86FF"; label := "Schools"; tags := ["amenity=school"] |});
  ("university", {| color := "#0077B6"; label := "Universities"; tags := ["amenity=university"] |});
  ("library", {| color := "#6B5B95"; label := "Libraries"; tags := ["amenity=library"] |});
  ("museum", {| color := "#9D4EDD"; label := "Museums"; tags := ["tourism=museum"] |});
  ("monument", {| color := "#9B59B6"; label := "Monuments"; tags := ["historic=monument"] |});
  ("viewpoint", {| color := "#48CAE4"; label := "Viewpoints"; tags := ["tourism=viewpoint"] |});
  ("park", {| color := "#2A9D8F"; label := "Parks"; tags := ["leisure=park"] |});
  ("garden", {| color := "#52B788"; label := "Gardens"; tags := ["leisure=garden"] |});
  ("dog_park", {| color := "#95D5B2"; label := "Dog Parks"; tags := ["leisure=dog_park"] |});
  ("playground", {| color := "#FFC300"; label := "Playgrounds"; tags := ["leisure=playground"] |});
  ("sports_centre", {| color := "#E63946"; label := "Sports"; tags := ["leisure=sports_centre"] |});
  ("pitch", {| color := "#7FFFD4"; label := "Pitches"; tags := ["leisure=pitch"] |});
  ("hospital", {| color := "#E85D75"; label := "Hospitals"; tags := ["amenity=hospital"] |});
  ("pharmacy", {| color := "#06D6A0"; label := "Pharmacies"; tags := ["amenity=pharmacy"] |});
  ("bank", {| color := "#FFB703"; label := "Banks"; tags := ["amenity=bank"] |});
  ("supermarket", {| color := "#8338EC"; label := "Supermarkets"; tags := ["shop=supermarket"] |});
  ("hairdresser", {| color := "#F72585"; label := "Hairdressers"; tags := ["shop=hairdresser"] |});
  ("hotel", {| color := "#FB5607"; label := "Hotels"; tags := ["tourism=hotel"] |});
  ("hostel", {| color := "#F77F00"; label := "Hostels"; tags := ["tourism=hostel"] |});
  ("station", {| color := "#2C3E50"; label := "Stations"; tags := ["railway=station"] |});
  ("parking", {| color := "#6C757D"; label := "Parking"; tags := ["amenity=parking"] |});
  ("poi", {| color := "#ADB5BD"; label := "Other POIs"; tags := [] |})
].

(** [CATEGORIES.poi.color]. *)
Definition CATEGORIES_poi_color : string :=
  match obj_get CATEGORIES "poi" with Some d => color d | None => "" end.

(** [CATEGORIES[category]?.color || CATEGORIES.poi.color] (line 591). *)
Definition category_color (category : string) : string :=
  match obj_get CATEGORIES category with
  | Some d => if (color d =? "")%string then CATEGORIES_poi_color else color d
  | None => CATEGORIES_poi_color
  end.

(** The classifier as the specification words it: a fixed, ordered list of
    (key, value, category) predicates, grouped tourism, amenity, shop,
    leisure, historic, railway; the first one that matches decides. *)
Definition PREDICATES : list (string * string * string) := [
  ("tourism", "museum", "museum"); ("tourism", "hotel", "hotel");
  ("tourism", "hostel", "hostel"); ("tourism", "viewpoint", "viewpoint");
  ("amenity", "cafe", "cafe"); ("amenity", "restaurant", "restaurant");
  ("amenity", "hospital", "hospital"); ("amenity", "school", "school");
  ("amenity", "pharmacy", "pharmacy"); ("amenity", "library", "library");
  ("amenity", "bank", "bank"); ("amenity", "bar", "bar");
  ("amenity", "university", "university"); ("amenity", "parking", "parking");
  ("shop", "supermarket", "supermarket"); ("shop", "bakery", "bakery");
  ("shop", "hairdresser", "hairdresser");
  ("leisure", "park", "park"); ("leisure", "garden", "garden");
  ("leisure", "sports_centre", "sports_centre"); ("leisure", "pitch", "pitch");
  ("leisure", "playground", "playground"); ("leisure", "dog_park", "dog_park");
  ("historic", "monument", "monument");
  ("railway", "station", "station")
].

Definition predicate_matches (tags : jsval) (p : string * string * string)
  : bool :=
  let '(key, value, _) := p in is_str (get tags key) value.

Definition first_match (tags : jsval) : string :=
  match find (predicate_matches tags) PREDICATES with
  | Some (_, _, category) => category
  | None => "poi"
  end.

(** The lookup [CATEGORIES[k]] succeeds, the colour found is not empty, and
    it is the colour chosen. *)
Definition colour_found (k : string) : bool :=
  match obj_get CATEGORIES k with
  | Some d => negb (color d =? "")%string && (category_color k =? color d)%string
  | None => false
  end.

End Taxonomy.

(** ** Geometry *)

Module Geometry.

(** A GeoJSON position [[lng, lat]]; the numbers are IEEE 754 doubles, as in
    JavaScript. *)
Definition position : Type := float * float.

(** The GeoJSON geometry types with their [coordinates]. *)
Inductive geometry : Type :=
| Point (coordinates : position)
| MultiPoint (coordinates : list position)
| LineString (coordinates : list position)
| MultiLineString (coordinates : list (list position))
| Polygon (coordinates : list (list position))
| MultiPolygon (coordinates : list (list (list position)))
| GeometryCollection.

(** A call either returns or throws a TypeError (with V8's message). *)
Inductive completion (A : Type) : Type :=
| Return (a : A)
| Throw (message : string).
Arguments Return {A} a.
Arguments Throw {A} message.

(** [coords.length] as a number. *)
Definition number_of_length (n : nat) : float :=
  PrimFloat.of_uint63 (Uint63.of_Z (Z.of_nat n)).

(** The [forEach] that sums the vertices of a ring and the division by
    [coords.length] (lines 615-620 and 625-630). *)
Definition vertex_average (coords : list position) : position :=
  let '(sumLat, sumLng) :=
    fold_left
      (fun (acc : float * float) (v : position) =>
         let '(sumLat, sumLng) := acc in
         let '(lng, lat) := v in
         ((sumLat + lat)%float, (sumLng + lng)%float))
      coords (0%float, 0%float) in
  ((sumLng / number_of_length (length coords))%float,
   (sumLat / number_of_length (length coords))%float).

Definition getCentroid (g : geometry) : completion (option position) :=
  match g with
  | Point coordinates => Return (Some coordinates)
  | Polygon coordinates =>
      match nth_error coordinates 0 with
      | Some coords => Return (Some (vertex_average coords))
      | None => Throw "Cannot read properties of undefined (reading 'forEach')"
      end
  | MultiPolygon coordinates =>
      match nth_error coordinates 0 with
      | None => Throw "Cannot read properties of undefined (reading '0')"
      | Some polygon =>
          match nth_error polygon 0 with
          | Some coords => Return (Some (vertex_average coords))
          | None =>
              Throw "Cannot read properties of undefined (reading 'forEach')"
          end
      end
  | _ => Return None
  end.

(** The arithmetic mean as the specification states it, one coordinate at a
    time: the sum of the values, added up from 0 in list order, divided by
    their number. *)
Definition mean (xs : list float) : float :=
  (fold_left PrimFloat.add xs 0 / number_of_length (length xs))%float.

End Geometry.

(** ** Layers, legend and rendering *)

Module App.
Import Value Taxonomy Geometry.

Record feature := {
  geometry : option geometry;     (* [f.geometry], possibly null *)
  properties : jsval              (* [f.properties] *)
}.

(** A map marker: where it was put ([setLngLat]) and the icon it carries
    ([createSVGIconWithColor(category, color)]).  Tooltip and popup markup
    are presentation and are left out. *)
Record marker := {
  lngLat : position;
  icon_category : string;
  icon_color : string
}.

Record layer := {
  markers : list marker;
  name : string;
  category : string;
  layer_color : string
}.

(** One [.legend-item] element of the document. *)
Record legend_item := {
  item_category : string;     (* [dataset.category] *)
  item_label : string;        (* [.legend-label] *)
  item_count : nat;           (* [.legend-count] *)
  item_active : bool;         (* class [active] *)
  remove_display : string     (* [style.display] of the remove button *)
}.

(** The state the page keeps: the global [layers], the legend items (the
    only [.legend-item] elements are those [initLegend] puts into [#legend])
    and the lines of the chat box.  The map itself is an external
    collaborator. *)
Record state := {
  layers : obj layer;
  legend : list legend_item;
  chat : list string
}.

Definition set_layers (st : state) (ls : obj layer) : state :=
  {| layers := ls; legend := legend st; chat := chat st |}.
Definition set_legend (st : state) (lg : list legend_item) : state :=
  {| layers := layers st; legend := lg; chat := chat st |}.

Definition addMessage (sender text : string) (st : state) : state :=
  {| layers := layers st; legend := legend st;
     chat := chat st ++ [(sender ++ ": " ++ text)%string] |}.

(** *** Legend *)

Definition initLegend (st : state) : state :=
  set_legend st
    (flat_map
       (fun e : string * category_data =>
          let '(categoryKey, categoryData) := e in
          if (categoryKey =? "poi")%string then [] (* Skip generic POI *)
          else [{| item_category := categoryKey;
                   item_label := label categoryData;
                   item_count := 0;
                   item_active := false;
                   remove_display := "none" |}])
       CATEGORIES).

(** [categoryCounts[c] || 0]. *)
Definition count_or_0 (counts : obj nat) (c : string) : nat :=
  match obj_get counts c with Some n => n | None => 0 end.

(** Lines 734-737. *)
Definition categoryCounts (ls : obj layer) : obj nat :=
  fold_left
    (fun counts l =>
       obj_set counts (category l)
         (count_or_0 counts (category l) + length (markers l)))
    (obj_values ls) [].

(** Lines 740-757, for one item. *)
Definition update_item (counts : obj nat) (item : legend_item) : legend_item :=
  let count := count_or_0 counts (item_category item) in
  {| item_category := item_category item;
     item_label := item_label item;
     item_count := count;
     item_active := (0 <? count)%nat;
     remove_display := if (0 <? count)%nat then "flex" else "none" |}.

Definition updateLegend (st : state) : state :=
  set_legend st (map (update_item (categoryCounts (layers st))) (legend st)).

(** *** Removing layers *)

Definition clearAllLayers (st : state) : state :=
  updateLegend (set_layers st []).

Definition removeLayer (layerId : string) (st : state) : state :=
  match obj_get (layers st) layerId with
  | Some _ => updateLegend (set_layers st (obj_delete (layers st) layerId))
  | None => st
  end.

Definition removeCategoryLayers (c : string) (st : state) : state :=
  let layerIdsToRemove :=
    flat_map
      (fun e : string * layer =>
         if (category (snd e) =? c)%string then [fst e] else [])
      (layers st) in
  updateLegend
    (set_layers st
       (fold_left (fun ls id => obj_delete ls id) layerIdsToRemove (layers st))).

(** *** Rendering *)

(** [f?.properties?.tags || f?.properties || {}] (lines 581 and 659). *)
Definition tags_of (f : option feature) : jsval :=
  let props := match f with Some f => properties f | None => JUndefined end in
  or_else (or_else (get_opt props "tags") props) (JObj []).

(** The detection loop of lines 579-587 from index [i] on, with [todo]
    iterations left. *)
Fixpoint detect_from (features : list feature) (i todo : nat) : string :=
  match todo with
  | 0 => "poi"
  | S todo' =>
      let cat := getCategoryFromTags (tags_of (nth_error features i)) in
      if negb (cat =? "poi")%string then cat
      else detect_from features (S i) todo'
  end.

Definition detectedCategory (features : list feature) : string :=
  detect_from features 0 (Nat.min (length features) 10).

(** [queryInfo.place_name || 'unknown']. *)
Definition place_or_unknown (place_name : string) : string :=
  if (place_name =? "")%string then "unknown" else place_name.

(** Line 596; [now] is [Date.now()], in milliseconds. *)
Definition layerId (category place_name : string) (now : N) : string :=
  (category ++ "_" ++ place_or_unknown place_name ++ "_" ++ decimal_N now)%string.

(** Line 597. *)
Definition layerName (category place_name : string) : string :=
  (category ++ " (" ++ place_or_unknown place_name ++ ")")%string.

(** What the marker loop has done so far. *)
Record progress := {
  store : obj layer;
  pointCount : nat;
  skippedCount : nat
}.

(** The body of the [features.forEach] of lines 640-689 for one feature.
    The map library is outside the source; creating the marker and putting
    it on the map (lines 683-686) is taken to succeed here.  The library
    itself accepts no coordinate that is NaN or has a latitude beyond 90
    degrees, so for such a coordinate the page does not get past line 684;
    nothing is stated below about what follows there. *)
Definition place_feature (id category color : string) (f : feature)
  (p : progress) : completion progress :=
  match geometry f with
  | None =>
      Return {| store := store p; pointCount := pointCount p;
                skippedCount := S (skippedCount p) |}
  | Some g =>
      match getCentroid g with
      | Throw msg => Throw msg
      | Return None =>
          Return {| store := store p; pointCount := pointCount p;
                    skippedCount := S (skippedCount p) |}
      | Return (Some (lng, lat)) =>
          let marker := {| lngLat := (lng, lat);
                           icon_category := category;
                           icon_color := color |} in
          match obj_get (store p) id with
          | Some l =>
              Return {| store :=
                          obj_set (store p) id
                            {| markers := markers l ++ [marker];
                               name := name l;
                               category := App.category l;
                               layer_color := layer_color l |};
                        pointCount := S (pointCount p);
                        skippedCount := skippedCount p |}
          | None =>
              Throw "Cannot read properties of undefined (reading 'markers')"
          end
      end
  end.

(** [features.forEach]: a throw ends the loop and leaves what was done. *)
Fixpoint place_features (id category color : string) (fs : list feature)
  (p : progress) : progress * option string :=
  match fs with
  | [] => (p, None)
  | f :: fs' =>
      match place_feature id category color f p with
      | Return p' => place_features id category color fs' p'
      | Throw msg => (p, Some msg)
      end
  end.

(** How a call of [renderData] ends. *)
Inductive rendered :=
| NoResults
| Rendered (pointCount skippedCount : nat)   (* the counts logged at line 691 *)
| Aborted (message : string).

(** [renderData(geojson, styleDefinitions, queryInfo)] for
    [geojson.features = features] and [queryInfo.place_name = place_name].
    Fitting the map view to the points (lines 566-576) touches the map
    only. *)
Definition renderData (features : list feature) (place_name : string)
  (now : N) (st : state) : state * rendered :=
  match features with
  | [] => (addMessage "Agent" "No results found." st, NoResults)
  | _ :: _ =>
      let category := detectedCategory features in
      let color := category_color category in
      let id := layerId category place_name now in
      let created :=
        obj_set (layers st) id
          {| markers := [];
             name := layerName category place_name;
             category := category;
             layer_color := color |} in
      match place_features id category color features
              {| store := created; pointCount := 0; skippedCount := 0 |} with
      | (p, None) =>
          (updateLegend (set_layers st (store p)),
           Rendered (pointCount p) (skippedCount p))
      | (p, Some msg) => (set_layers st (store p), Aborted msg)
      end
  end.

(** Lines 822-827 of the send handler: render, then report. *)
Definition render_and_report (features : list feature) (place_name : string)
  (now : N) (st : state) : state :=
  match renderData features place_name now st with
  | (st', Aborted msg) =>
      addMessage "Agent" ("Error: " ++ msg ++ " ❌") st'
  | (st', _) =>
      addMessage "Agent"
        ("Found " ++ decimal_nat (length features) ++ " results ✅") st'
  end.

(** *** The events that change the layers *)

Inductive event :=
| ClearAll                                  (* the Clear All button *)
| RemoveLayer (layerId : string)
| RemoveCategory (category : string)        (* a remove button of the legend *)
| Query (features : list feature) (place_name : string) (now : N).

Definition handle (e : event) (st : state) : state :=
  match e with
  | ClearAll => clearAllLayers st
  | RemoveLayer id => removeLayer id st
  | RemoveCategory c => removeCategoryLayers c st
  | Query features place_name now => render_and_report features place_name now st
  end.

(** Does the event end in a TypeError? *)
Definition aborts (e : event) (st : state) : bool :=
  match e with
  | Query features place_name now =>
      match snd (renderData features place_name now st) with
      | Aborted _ => true
      | _ => false
      end
  | _ => false
  end.

(** The page before any query: no layer, no legend, an empty chat. *)
Definition empty_page : state := {| layers := []; legend := []; chat := [] |}.

(** *** The rendering rules as the specification words them *)

(** Point, Polygon and MultiPolygon are the geometries a marker is placed
    for. *)
Definition placeable (f : feature) : bool :=
  match geometry f with
  | Some (Point _) | Some (Polygon _) | Some (MultiPolygon _) => true
  | _ => false
  end.


(** The marker of a placeable feature. *)
Definition marker_for (category color : string) (f : feature) : list marker :=
  match geometry f with
  | Some g =>
      match getCentroid g with
      | Return (Some c) =>
          [{| lngLat := c; icon_category := category; icon_color := color |}]
      | _ => []
      end
  | None => []
  end.

(** The markers over all layers of one category. *)
Definition total_markers (c : string) (ls : obj layer) : nat :=
  list_sum
    (map (fun l => length (markers l))
       (filter (fun l => (category l =? c)%string) (obj_values ls))).

(** The legend that goes with a store: one item per category of the table
    other than "poi", in table order. *)
Definition expected_legend (ls : obj layer) : list legend_item :=
  map
    (fun e : string * category_data =>
       {| item_category := fst e;
          item_label := label (snd e);
          item_count := total_markers (fst e) ls;
          item_active := (0 <? total_markers (fst e) ls)%nat;
          remove_display :=
            if (0 <? total_markers (fst e) ls)%nat then "flex" else "none" |})
    (filter (fun e => negb (fst e =? "poi")%string) CATEGORIES).

Definition synced (st : state) : Prop :=
  legend st = expected_legend (layers st).

(** The legend holds the items [initLegend] made, with whatever counts an
    earlier [updateLegend] left in them. *)
Definition legend_loaded (st : state) : Prop :=
  exists ls0, legend st = expected_legend ls0.

(** *** Sample inputs *)

Definition point_feature (lng lat : float) (tags : obj jsval) : feature :=
  {| geometry := Some (Point (lng, lat));
     properties := JObj [("type", JStr "node"); ("tags", JObj tags)] |}.

Definition line_feature : feature :=
  {| geometry := Some (LineString [(2.125, 41.375); (2.25, 41.5)]%float);
     properties := JObj [("type", JStr "way");
                         ("tags", JObj [("highway", JStr "path")])] |}.

Definition cafe : obj jsval := [("amenity", JStr "cafe"); ("name", JStr "Bar Pi")].

(** Three placeable features and two unplaceable ones. *)
Definition three_of_five : list feature :=
  [point_feature 2.125 41.375 cafe; line_feature; point_feature 2.25 41.25 cafe;
   line_feature; point_feature 2.375 41.5 cafe].

(** A Polygon whose outer ring has no vertex. *)
Definition empty_ring_polygon : feature :=
  {| geometry := Some (Polygon [[]]);
     properties := JObj [("tags", JObj cafe)] |}.

(** A MultiPolygon whose first polygon has an outer ring without a vertex. *)
Definition empty_ring_multipolygon : feature :=
  {| geometry := Some (MultiPolygon [[[]]]);
     properties := JObj [("tags", JObj cafe)] |}.

(** Ten features without a known tag, then a cafe. *)
Definition cafe_in_eleventh_place : list feature :=
  repeat (point_feature 2.125 41.375 [("building", JStr "yes")]) 10
  ++ [point_feature 2.25 41.25 cafe].

(** The page once [DOMContentLoaded] has run. *)
Definition loaded_page : state := initLegend empty_page.

(** The first classification in a list that is not the fallback, and the
    fallback when there is none. *)
Definition first_or_poi (cs : list string) : string :=
  match find (fun c => negb (c =? "poi")%string) cs with
  | Some c => c
  | None => "poi"
  end.

(** The first non-fallback classification among the first ten features. *)
Definition first_non_fallback (features : list feature) : string :=
  first_or_poi
    (map (fun f => getCategoryFromTags (tags_of (Some f))) (firstn 10 features)).

(** A layer with further markers pushed. *)
Definition push_markers (l : layer) (ms : list marker) : layer :=
  {| markers := markers l ++ ms; name := name l; category := category l;
     layer_color := layer_color l |}.

End App.

(** ** Further parts of the page *)

Module Page.
Import Js Value Taxonomy Geometry App.

(** *** Placeholder substitution (line 809) *)

(** [s.replaceAll(pat, rep)] for a non-empty string pattern and a
    replacement without [$]: the occurrences are taken from left to right
    and do not overlap.  [fuel] bounds the number of positions tried. *)
Fixpoint replaceAll_from (fuel : nat) (pat rep s : jsstring) : jsstring :=
  match fuel with
  | 0 => s
  | S fuel' =>
      match strip_prefix pat s with
      | Some t => rep ++ replaceAll_from fuel' pat rep t
      | None =>
          match s with
          | [] => []
          | c :: s' => c :: replaceAll_from fuel' pat rep s'
          end
      end
  end.

Definition replaceAll (pat rep s : jsstring) : jsstring :=
  replaceAll_from (S (length s)) pat rep s.

Definition BBOX_PLACEHOLDER : jsstring := str "{{bbox}}".

(** [ai.query.replaceAll("{{bbox}}", bbox)]. *)
Definition fill_bbox (query bbox : jsstring) : jsstring :=
  replaceAll BBOX_PLACEHOLDER bbox query.

(** A text in which some [);] is followed, after white space or directly,
    by [)]: what [/\);\s*\)/] looks for. *)
Definition closes_union (s : jsstring) : Prop :=
  exists a w b,
    s = a ++ str ");" ++ w ++ str ")" ++ b /\ forallb is_ws w = true.

(** *** Popup content (lines 546-555 and 659-664) *)

Definition skipPrefixes : list string :=
  ["addr:"; "contact:"; "source:"; "attribution:"; "@"; "wikidata"; "wikipedia"].
Definition skipKeys : list string :=
  ["name"; "name:en"; "name:es"; "created_by"; "fixme"].

(** The filter of [cleanTags], on a key. *)
Definition shown_key (k : string) : bool :=
  negb (existsb (String.eqb k) skipKeys)
  && negb (existsb (fun prefix => String.prefix prefix k) skipPrefixes).

(** One [[k, v]] pair of the array that [Object.entries] returns. *)
Record entry := {
  entry_key : string;
  entry_value : jsval
}.

(** [Object.entries(tags)] for [tags] an object whose own properties are
    listed in that order. *)
Definition Object_entries (tags : obj jsval) : list entry :=
  map (fun e => {| entry_key := fst e; entry_value := snd e |}) tags.

(** [cleanTags(tags)] for [tags] an object; the result is an array of
    pairs, not an object. *)
Definition cleanTags (tags : obj jsval) : list entry :=
  firstn 3 (filter (fun e => shown_key (entry_key e)) (Object_entries tags)).

(** Line 664: the name for the tooltip and the popup. *)
Definition marker_name (f : feature) : jsval :=
  let tags := tags_of (Some f) in
  or_else
    (or_else
       (or_else (or_else (get tags "name") (get tags "name:en"))
          (get tags "name:es"))
       (get_opt (properties f) "name"))
    (JStr "Unnamed").

(** *** Sequences of events *)

Definition run (events : list event) (st : state) : state :=
  fold_left (fun st e => handle e st) events st.

(** A layer as [renderData] makes it: identifier and name built from its
    category, a category of the table with that category's colour, and
    markers that all carry the layer's category and colour. *)
Definition entry_ok (e : string * layer) : Prop :=
  let '(id, l) := e in
  (exists place_name now,
      id = layerId (category l) place_name now
      /\ name l = layerName (category l) place_name)
  /\ In (category l) (obj_keys CATEGORIES)
  /\ layer_color l = category_color (category l)
  /\ Forall
       (fun m => icon_category m = category l /\ icon_color m = layer_color l)
       (markers l).

(** A feature on which [getCentroid] throws: a Polygon without any ring, a
    MultiPolygon without any polygon or whose first polygon has no ring. *)
Definition ringless (f : feature) : bool :=
  match geometry f with
  | Some (Polygon []) => true
  | Some (MultiPolygon []) => true
  | Some (MultiPolygon ([] :: _)) => true
  | _ => false
  end.

(** What a call of [renderData] does to the legend: [updateLegend] on the
    new layers when it gets to its end, nothing when it is cut short. *)
Definition synced_or_not (before after : state) (finished : bool) : Prop :=
  legend after
  = if finished
    then map (update_item (categoryCounts (layers after))) (legend before)
    else legend before.

(** A feature on which [getCentroid] returns. *)
Definition resolvable (f : feature) : bool := negb (ringless f).

(** All markers in the store. *)
Definition marker_count (ls : obj layer) : nat :=
  list_sum (map (fun l => length (markers l)) (obj_values ls)).

(** *** More sample inputs *)

Definition no_ring_polygon : feature :=
  {| geometry := Some (Polygon []);
     properties := JObj [("tags", JObj cafe)] |}.

Definition museum : obj jsval :=
  [("tourism", JStr "museum"); ("name", JStr "MACBA");
   ("addr:city", JStr "Barcelona"); ("wikidata", JStr "Q1137536");
   ("fee", JStr "yes"); ("wheelchair", JStr "yes"); ("opening_hours", JStr "10-20")].

(** One cafe. *)
Definition one_cafe : list feature := [point_feature 2.25 41.25 cafe].

(** A feature without a tag the classifier knows. *)
Definition untagged : feature :=
  point_feature 2.125 41.375 [("building", JStr "yes")].

(** Nine features without a known tag, then a cafe, then a museum. *)
Definition cafe_in_tenth_place : list feature :=
  repeat untagged 9
  ++ [point_feature 2.25 41.25 cafe;
      point_feature 2.375 41.5 [("tourism", JStr "museum")]].

(** A feature without a known tag, a museum, a cafe. *)
Definition museum_before_cafe : list feature :=
  [untagged; point_feature 2.375 41.5 [("tourism", JStr "museum")];
   point_feature 2.25 41.25 cafe].

(** A cafe whose tags are the properties themselves, and a feature whose
    properties are null. *)
Definition flat_cafe : feature :=
  {| geometry := Some (Point (2.25, 41.25)%float);
     properties := JObj [("amenity", JStr "cafe"); ("id", JStr "node/1")] |}.
Definition no_properties : feature :=
  {| geometry := Some (Point (2.25, 41.25)%float); properties := JNull |}.

Definition two_museums : list feature :=
  [point_feature 2.125 41.375 museum; point_feature 2.25 41.25 museum].

End Page.

(** * Properties *)

Unset Implicit Arguments.

(** ** The tag classifier and the taxonomy *)

Module TaxonomyFacts.
Import Value Taxonomy.

Ltac split_ifs :=
  repeat match goal with
         | |- context [if ?b then _ else _] => destruct b eqn:?
         end.

(** The chain of [if]s is a first-match search through [PREDICATES]. *)
Lemma getCategoryFromTags_object (tags : jsval) :
  truthy tags = true -> getCategoryFromTags tags = first_match tags.
Proof.
  intros Ht. unfold getCategoryFromTags, first_match. rewrite Ht.
  cbn [negb PREDICATES find predicate_matches].
  repeat match goal with
         | |- context [is_str ?v ?s] => destruct (is_str v s); [reflexivity|]
         end.
  reflexivity.
Qed.

(** C7: absent tags (null, undefined) classify as "poi"; a tag mapping is
    classified by the first predicate of the ordered list (tourism, amenity,
    shop, leisure, historic, railway) that matches, so tourism=museum beats
    amenity=cafe; a mapping that matches none (the empty one, for instance)
    is "poi". *)
Theorem getCategoryFromTags_first_match :
  getCategoryFromTags JNull = "poi"
  /\ getCategoryFromTags JUndefined = "poi"
  /\ (forall fields,
        getCategoryFromTags (JObj fields) = first_match (JObj fields))
  /\ (forall fields,
        find (predicate_matches (JObj fields)) PREDICATES = None ->
        getCategoryFromTags (JObj fields) = "poi")
  /\ map (fun p => fst (fst p)) PREDICATES
     = repeat "tourism" 4 ++ repeat "amenity" 10 ++ repeat "shop" 3
       ++ repeat "leisure" 6 ++ ["historic"; "railway"]
  /\ getCategoryFromTags
       (JObj [("tourism", JStr "museum"); ("amenity", JStr "cafe")]) = "museum"
  /\ getCategoryFromTags
       (JObj [("amenity", JStr "cafe"); ("tourism", JStr "museum")]) = "museum"
  /\ getCategoryFromTags (JObj [("amenity", JStr "cafe")]) = "cafe"
  /\ getCategoryFromTags (JObj []) = "poi".
Proof.
  repeat split; try reflexivity.
  - intros fields. now apply getCategoryFromTags_object.
  - intros fields Hnone. rewrite getCategoryFromTags_object by reflexivity.
    unfold first_match. now rewrite Hnone.
Qed.

Lemma getCategoryFromTags_first_match_witness :
  getCategoryFromTags (JObj [("building", JStr "yes")]) = "poi".
Proof.
  apply (proj1 (proj2 (proj2 (proj2 getCategoryFromTags_first_match)))).
  reflexivity.
Defined.

(** Every result of the classifier is a key of the table. *)
Lemma getCategoryFromTags_key (tags : jsval) :
  In (getCategoryFromTags tags) (obj_keys CATEGORIES).
Proof.
  unfold getCategoryFromTags.
  split_ifs; vm_compute; tauto.
Qed.

Lemma keys_colour_found (k : string) :
  In k (obj_keys CATEGORIES) -> colour_found k = true.
Proof.
  intros Hin.
  assert (H : forallb colour_found (obj_keys CATEGORIES) = true)
    by (vm_compute; reflexivity).
  rewrite forallb_forall in H. now apply H.
Qed.

Lemma colour_found_spec (k : string) :
  colour_found k = true ->
  exists d, obj_get CATEGORIES k = Some d
            /\ color d <> ""
            /\ category_color k = color d.
Proof.
  unfold colour_found. destruct (obj_get CATEGORIES k) as [d|]; [|discriminate].
  rewrite andb_true_iff, negb_true_iff. intros [Hne Heq].
  exists d. repeat split.
  - intros E. rewrite E in Hne. discriminate.
  - now apply String.eqb_eq.
Qed.

End TaxonomyFacts.

(** ** The geometry resolver *)

Module GeometryFacts.
Import Geometry.

Lemma fold_sums (coords : list position) (a b : float) :
  fold_left
    (fun (acc : float * float) (v : position) =>
       let '(sumLat, sumLng) := acc in
       let '(lng, lat) := v in
       ((sumLat + lat)%float, (sumLng + lng)%float))
    coords (a, b)
  = (fold_left PrimFloat.add (map snd coords) a,
     fold_left PrimFloat.add (map fst coords) b).
Proof.
  revert a b. induction coords as [|[lng lat] coords IH]; intros a b.
  - reflexivity.
  - cbn [fold_left map fst snd]. apply IH.
Qed.

Lemma vertex_average_mean (coords : list position) :
  vertex_average coords = (mean (map fst coords), mean (map snd coords)).
Proof.
  unfold vertex_average, mean. rewrite fold_sums, !length_map. reflexivity.
Qed.

(** C6: a Point resolves to its own coordinate; a Polygon to the mean
    longitude and mean latitude of the vertices of its outer ring, whatever
    the holes; a MultiPolygon to the same for the outer ring of its first
    polygon, whatever the others; every other geometry type to null.  The
    means are taken in double arithmetic, summing in ring order. *)
Theorem getCentroid_cases :
  (forall c, getCentroid (Point c) = Return (Some c))
  /\ (forall v ring holes,
        getCentroid (Polygon ((v :: ring) :: holes))
        = Return (Some (mean (map fst (v :: ring)), mean (map snd (v :: ring)))))
  /\ getCentroid
       (Polygon [[(0, 0); (0, 2); (2, 2); (2, 0)]%float]) = Return (Some (1, 1)%float)
  /\ (forall v ring holes polygons,
        getCentroid (MultiPolygon (((v :: ring) :: holes) :: polygons))
        = Return (Some (mean (map fst (v :: ring)), mean (map snd (v :: ring)))))
  /\ (forall cs, getCentroid (LineString cs) = Return None)
  /\ (forall cs, getCentroid (MultiPoint cs) = Return None)
  /\ (forall cs, getCentroid (MultiLineString cs) = Return None)
  /\ getCentroid GeometryCollection = Return None.
Proof.
  repeat split.
  - intros v ring holes. cbn [getCentroid nth_error].
    now rewrite vertex_average_mean.
  - intros v ring holes polygons. cbn [getCentroid nth_error].
    now rewrite vertex_average_mean.
Qed.

End GeometryFacts.

(** ** Objects *)

Module ObjFacts.
Import Value.

Section Obj.
Context {A : Type}.
Implicit Types (o : obj A) (k : string) (v : A).

Lemma obj_get_set o k k' v :
  obj_get (obj_set o k v) k'
  = if (k =? k')%string then Some v else obj_get o k'.
Proof.
  induction o as [|[k0 v0] o IH]; cbn [obj_set obj_get].
  - destruct (k =? k')%string; reflexivity.
  - destruct (String.eqb_spec k0 k) as [->|Hne]; cbn [obj_get].
    + destruct (k =? k')%string; reflexivity.
    + rewrite IH. destruct (String.eqb_spec k0 k') as [->|Hne'].
      * apply String.eqb_neq in Hne. rewrite String.eqb_sym, Hne. reflexivity.
      * reflexivity.
Qed.

Lemma obj_get_set_same o k v : obj_get (obj_set o k v) k = Some v.
Proof. rewrite obj_get_set, String.eqb_refl. reflexivity. Qed.

Lemma obj_set_set o k v v' : obj_set (obj_set o k v) k v' = obj_set o k v'.
Proof.
  induction o as [|[k0 v0] o IH]; cbn [obj_set].
  - now rewrite String.eqb_refl.
  - destruct (k0 =? k)%string eqn:E; cbn [obj_set]; rewrite E.
    + reflexivity.
    + now rewrite IH.
Qed.

(** Which keys there are after a write does not depend on the value. *)
Lemma obj_keys_set_any o k v v' :
  obj_keys (obj_set o k v) = obj_keys (obj_set o k v').
Proof.
  unfold obj_keys.
  induction o as [|[k0 v0] o IH]; cbn [obj_set map fst]; [reflexivity|].
  destruct (k0 =? k)%string; cbn [map fst]; [reflexivity|]. now rewrite IH.
Qed.


End Obj.
End ObjFacts.

(** ** Rendering *)

Module AppFacts.
Import Value Taxonomy Geometry App ObjFacts TaxonomyFacts.

(** *** Category detection *)

Lemma skipn_cons_nth_error {A} (l : list A) i x rest :
  skipn i l = x :: rest -> nth_error l i = Some x /\ skipn (S i) l = rest.
Proof.
  revert l. induction i as [|i IH]; intros [|y l] H; try discriminate.
  - cbn in H. injection H as -> ->. now split.
  - cbn [skipn] in H. destruct (IH _ H) as [Hn Hs]. now split.
Qed.

Lemma detect_from_find features todo : forall i rest,
  skipn i features = rest ->
  todo <= length rest ->
  detect_from features i todo
  = first_or_poi
      (map (fun f => getCategoryFromTags (tags_of (Some f))) (firstn todo rest)).
Proof.
  induction todo as [|todo IH]; intros i rest Hskip Hlen; [reflexivity|].
  destruct rest as [|f rest]; [cbn in Hlen; lia|].
  destruct (skipn_cons_nth_error _ _ _ _ Hskip) as [Hnth Hrest].
  cbn [detect_from firstn map]. rewrite Hnth.
  unfold first_or_poi. cbn [find].
  destruct (negb (getCategoryFromTags (tags_of (Some f)) =? "poi")%string);
    [reflexivity|].
  apply IH; [assumption | cbn in Hlen; lia].
Qed.

Lemma detectedCategory_first_non_fallback features :
  detectedCategory features = first_non_fallback features.
Proof.
  unfold detectedCategory, first_non_fallback.
  rewrite (detect_from_find features _ 0 features eq_refl) by lia.
  rewrite Nat.min_comm, <- firstn_firstn, firstn_all.
  reflexivity.
Qed.

Lemma detect_from_key features todo i :
  In (detect_from features i todo) (obj_keys CATEGORIES).
Proof.
  revert i. induction todo as [|todo IH]; intros i; cbn [detect_from].
  - vm_compute. tauto.
  - destruct (negb _); [apply getCategoryFromTags_key | apply IH].
Qed.

(** *** The marker loop *)

Lemma push_markers_nil l : push_markers l [] = l.
Proof. destruct l. unfold push_markers. cbn. now rewrite app_nil_r. Qed.

Lemma push_markers_app l ms ms' :
  push_markers (push_markers l ms) ms' = push_markers l (ms ++ ms').
Proof. unfold push_markers. cbn. now rewrite app_assoc. Qed.

(** One round of the loop that does not throw: the store is still the one
    the loop started from with the new layer under its identifier, and the
    feature's marker, if it has one, is the layer's last. *)
Lemma place_feature_step id cat col base l f p p' :
  store p = obj_set base id l ->
  place_feature id cat col f p = Return p' ->
  store p' = obj_set base id (push_markers l (marker_for cat col f))
  /\ pointCount p' = pointCount p + length (marker_for cat col f)
  /\ skippedCount p' = skippedCount p + (1 - length (marker_for cat col f)).
Proof.
  intros Hp. unfold place_feature, marker_for.
  destruct (geometry f) as [g|].
  - destruct (getCentroid g) as [[[lng lat]|]|msg]; try discriminate.
    + rewrite Hp, obj_get_set_same, obj_set_set.
      intros [= <-]. cbn [store pointCount skippedCount length].
      repeat split; lia.
    + intros [= <-]. cbn [store pointCount skippedCount length].
      rewrite push_markers_nil. repeat split; [assumption | lia | lia].
  - intros [= <-]. cbn [store pointCount skippedCount length].
    rewrite push_markers_nil. repeat split; [assumption | lia | lia].
Qed.

(** Whatever the loop meets, the store stays the one it started from with
    the new layer written under its identifier; only the layer's markers
    grow. *)
Lemma place_features_store id cat col base fs : forall l p,
  store p = obj_set base id l ->
  exists ms,
    store (fst (place_features id cat col fs p))
    = obj_set base id (push_markers l ms).
Proof.
  induction fs as [|f fs IH]; intros l p Hp; cbn [place_features].
  - exists []. now rewrite push_markers_nil.
  - destruct (place_feature id cat col f p) as [p'|msg] eqn:Hstep.
    + destruct (place_feature_step _ _ _ _ _ _ _ _ Hp Hstep) as (Hp' & _ & _).
      destruct (IH _ _ Hp') as [ms Hms].
      exists (marker_for cat col f ++ ms).
      now rewrite Hms, push_markers_app.
    + exists []. cbn [fst]. now rewrite push_markers_nil.
Qed.





(** The layer of a rendering is written under [layerId], with the detected
    category, also when the marker loop throws. *)
Lemma renderData_writes f fs place_name now st :
  exists l,
    layers (fst (renderData (f :: fs) place_name now st))
    = obj_set (layers st)
        (layerId (detectedCategory (f :: fs)) place_name now) l
    /\ category l = detectedCategory (f :: fs).
Proof.
  unfold renderData.
  match goal with
  | |- context [place_features ?i ?c ?k ?xs ?p] =>
      destruct (place_features_store i c k (layers st) xs _ p eq_refl)
        as [ms Hms];
      destruct (place_features i c k xs p) as [p' [msg|]]
  end; cbn [fst layers set_layers updateLegend set_legend] in *;
    rewrite Hms; eexists; split; reflexivity.
Qed.

(** *** The legend *)

Lemma count_or_0_set counts k n c :
  count_or_0 (obj_set counts k n) c
  = if (k =? c)%string then n else count_or_0 counts c.
Proof.
  unfold count_or_0. rewrite obj_get_set.
  destruct (k =? c)%string; reflexivity.
Qed.

Lemma fold_counts c (ls : list layer) : forall counts,
  count_or_0
    (fold_left
       (fun counts l =>
          obj_set counts (category l)
            (count_or_0 counts (category l) + length (markers l)))
       ls counts) c
  = count_or_0 counts c
    + list_sum
        (map (fun l => length (markers l))
           (filter (fun l => (category l =? c)%string) ls)).
Proof.
  induction ls as [|l ls IH]; intros counts; cbn [fold_left filter].
  - cbn. lia.
  - rewrite IH, count_or_0_set.
    destruct (String.eqb_spec (category l) c) as [E|_]; [rewrite E|];
      unfold list_sum; cbn [map fold_right]; lia.
Qed.

Lemma categoryCounts_total c ls :
  count_or_0 (categoryCounts ls) c = total_markers c ls.
Proof. unfold categoryCounts, total_markers. now rewrite fold_counts. Qed.

(** [updateLegend] overwrites whatever the items showed before. *)
Lemma updateLegend_synced st ls0 :
  legend st = expected_legend ls0 -> synced (updateLegend st).
Proof.
  intros H. unfold synced, updateLegend. cbn [legend layers set_legend].
  rewrite H. unfold expected_legend. rewrite map_map.
  apply map_ext. intros [k d]. unfold update_item.
  cbn [item_category item_label fst snd].
  now rewrite categoryCounts_total.
Qed.

Lemma loaded_page_synced : synced loaded_page.
Proof. reflexivity. Qed.

Lemma loaded_page_legend_loaded : legend_loaded loaded_page.
Proof. exists []. reflexivity. Qed.

(** No event, not even one that ends in an error, changes which items the
    legend has. *)
Lemma legend_loaded_handle e st : legend_loaded st -> legend_loaded (handle e st).
Proof.
  intros [ls0 H].
  assert (Hu : forall st', legend st' = legend st -> legend_loaded (updateLegend st')).
  { intros st' E. eexists. apply (updateLegend_synced st' ls0). now rewrite E. }
  destruct e as [|id|c|features place_name now]; cbn [handle].
  - now apply Hu.
  - unfold removeLayer. destruct (obj_get (layers st) id); [now apply Hu|].
    now exists ls0.
  - now apply Hu.
  - unfold render_and_report, renderData. destruct features as [|f fs].
    + now exists ls0.
    + destruct (place_features _ _ _ _ _) as [p [msg|]].
      * now exists ls0.
      * apply (Hu (set_layers st (store p))). reflexivity.
Qed.

(** An event that changes the layers and does not end in an error ends
    with [updateLegend]. *)
Lemma synced_handle e st :
  legend_loaded st ->
  aborts e st = false ->
  layers (handle e st) <> layers st ->
  synced (handle e st).
Proof.
  intros [ls0 Hs] Hab Hch.
  destruct e as [|id|c|features place_name now]; cbn [handle] in *.
  - now apply updateLegend_synced with (ls0 := ls0).
  - unfold removeLayer in *. destruct (obj_get (layers st) id); [|contradiction].
    now apply updateLegend_synced with (ls0 := ls0).
  - now apply updateLegend_synced with (ls0 := ls0).
  - cbn [aborts] in Hab. unfold render_and_report in *.
    unfold renderData in *. destruct features as [|f fs]; [contradiction|].
    destruct (place_features _ _ _ _ _) as [p [msg|]]; [discriminate|].
    now apply (updateLegend_synced (set_layers st (store p)) ls0).
Qed.

(** *** Identifiers *)

Lemma append_cancel_l (a x y : string) :
  (a ++ x = a ++ y)%string -> x = y.
Proof.
  induction a as [|c a IH]; cbn; [auto|]. intros [= H]. auto.
Qed.

Lemma decimal_N_inj n m : decimal_N n = decimal_N m -> n = m.
Proof.
  unfold decimal_N. intros H.
  apply DecimalN.Unsigned.to_uint_inj.
  apply (f_equal NilEmpty.uint_of_string) in H.
  rewrite !NilEmpty.usu in H. now injection H.
Qed.

End AppFacts.

(** ** The claims about rendering *)

Module RenderClaims.
Import Value Taxonomy Geometry App ObjFacts TaxonomyFacts AppFacts.

(** C10: whatever the classifier is given, its result is a key of
    [CATEGORIES]; so is the category detected for a result set, and the
    colour lookup of line 591 finds that entry's (non-empty) colour without
    falling back to the colour of "poi". *)
Theorem category_always_in_table :
  (forall tags,
     exists d, obj_get CATEGORIES (getCategoryFromTags tags) = Some d)
  /\ (forall features,
        exists d,
          obj_get CATEGORIES (detectedCategory features) = Some d
          /\ color d <> ""
          /\ category_color (detectedCategory features) = color d).
Proof.
  split.
  - intros tags.
    destruct (colour_found_spec _ (keys_colour_found _ (getCategoryFromTags_key tags)))
      as (d & Hd & _). eauto.
  - intros features. apply colour_found_spec, keys_colour_found.
    apply detect_from_key.
Qed.

(** C9: the layer that [renderData] writes for a non-empty result set has
    the category found by scanning the first ten features (all of them when
    there are fewer) in order: the first classification that is not "poi",
    and "poi" when there is none, whatever the features after the tenth
    are.  So a museum after an untagged feature and before a cafe makes a
    "museum" layer, a cafe in tenth place a "cafe" layer, a cafe in eleventh
    place a "poi" layer; the tags are [properties.tags], or the properties
    themselves when they have no [tags], or none. *)
Theorem renderData_layer_category f fs place_name now st :
  let features := f :: fs in
  detectedCategory features = first_non_fallback features
  /\ first_non_fallback features = first_non_fallback (firstn 10 features)
  /\ (exists l,
        layers (fst (renderData features place_name now st))
        = obj_set (layers st)
            (layerId (first_non_fallback features) place_name now) l
        /\ category l = first_non_fallback features)
  /\ detectedCategory cafe_in_eleventh_place = "poi"
  /\ detectedCategory Page.cafe_in_tenth_place = "cafe"
  /\ detectedCategory Page.museum_before_cafe = "museum"
  /\ detectedCategory [Page.untagged; Page.flat_cafe] = "cafe"
  /\ detectedCategory [Page.no_properties; Page.untagged] = "poi"
  /\ map category
       (obj_values
          (layers (fst (renderData Page.cafe_in_tenth_place "Paris"
                          1700000000000 loaded_page))))
     = ["cafe"]
  /\ map category
       (obj_values
          (layers (fst (renderData Page.museum_before_cafe "Paris"
                          1700000000000 loaded_page))))
     = ["museum"]
  /\ map category
       (obj_values
          (layers (fst (renderData cafe_in_eleventh_place "Paris"
                          1700000000000 loaded_page))))
     = ["poi"].
Proof.
  intros features. split; [apply detectedCategory_first_non_fallback|].
  split; [unfold first_non_fallback; now rewrite firstn_firstn|].
  split; [|repeat split; vm_compute; reflexivity].
  rewrite <- detectedCategory_first_non_fallback.
  apply renderData_writes.
Qed.

(** C4 (the code at the failing input): for a Polygon or MultiPolygon whose
    outer ring is empty [getCentroid] divides 0 by 0 and returns the pair
    (NaN, NaN).  That is a value, not null, so the loop does not take its
    skip branch for the feature: a round of the loop that returns for it
    has counted it as placed and has left the count of skipped features as
    it was. *)
Theorem empty_ring_not_skipped :
  (forall holes,
     getCentroid (Polygon ([] :: holes)) = Return (Some (nan, nan)))
  /\ (forall holes polygons,
        getCentroid (MultiPolygon (([] :: holes) :: polygons))
        = Return (Some (nan, nan)))
  /\ (forall holes props id cat col p p',
        place_feature id cat col
          {| geometry := Some (Polygon ([] :: holes)); properties := props |} p
        = Return p' ->
        skippedCount p' = skippedCount p /\ pointCount p' = S (pointCount p))
  /\ (forall holes polygons props id cat col p p',
        place_feature id cat col
          {| geometry := Some (MultiPolygon (([] :: holes) :: polygons));
             properties := props |} p
        = Return p' ->
        skippedCount p' = skippedCount p /\ pointCount p' = S (pointCount p)).
Proof.
  split; [reflexivity|]. split; [reflexivity|].
  split; intros; unfold place_feature in *; cbn in *;
    match goal with
    | H : match obj_get ?s ?k with _ => _ end = _ |- _ =>
        destruct (obj_get s k); [|discriminate H];
        injection H as <-; split; reflexivity
    end.
Qed.




(** C2 (the code at the failing input): two renderings for the same
    category and place within one millisecond get the same identifier, and
    the second layer is written over the first: the store has no more keys
    after the second rendering than after the first, and the three markers
    of the first layer are in no layer any more. *)
Theorem same_millisecond_overwrites :
  (forall f fs place_name now st,
     let first := fst (renderData (f :: fs) place_name now st) in
     let second := fst (renderData (f :: fs) place_name now first) in
     obj_keys (layers second) = obj_keys (layers first))
  /\ (let first :=
        render_and_report three_of_five "Paris" 1700000000000 loaded_page in
      let second :=
        render_and_report Page.one_cafe "Paris" 1700000000000 first in
      detectedCategory three_of_five = detectedCategory Page.one_cafe
      /\ obj_keys (layers first) = ["cafe_Paris_1700000000000"]
      /\ map (fun l => length (markers l)) (obj_values (layers first)) = [3]
      /\ obj_keys (layers second) = ["cafe_Paris_1700000000000"]
      /\ map (fun l => length (markers l)) (obj_values (layers second)) = [1]).
Proof.
  split; [|repeat split].
  intros f fs place_name now st first second. subst second.
  destruct (renderData_writes f fs place_name now first) as (l2 & -> & _).
  subst first.
  destruct (renderData_writes f fs place_name now st) as (l1 & -> & _).
  rewrite obj_set_set. apply obj_keys_set_any.
Qed.

(** For one category and one place, two identifiers are the same exactly
    when the two creation times, in milliseconds, are the same; a rendering
    writes its layer under the identifier made of the detected category,
    the place name and the creation time. *)
Lemma layerId_distinct_iff category place_name now1 now2 :
  (layerId category place_name now1 = layerId category place_name now2
   <-> now1 = now2)
  /\ (forall f fs st,
        exists l,
          layers (fst (renderData (f :: fs) place_name now1 st))
          = obj_set (layers st)
              (layerId (detectedCategory (f :: fs)) place_name now1) l).
Proof.
  split.
  - split; [|now intros ->].
    unfold layerId. intros H.
    do 4 apply append_cancel_l in H.
    now apply decimal_N_inj.
  - intros f fs st.
    destruct (renderData_writes f fs place_name now1 st) as (l & Hl & _).
    eauto.
Qed.

(** C5 (counterexample): after a rendering that puts a marker into a layer
    of category "poi", the legend has no item for "poi", although "poi" is
    a key of the table. *)
Lemma legend_has_no_poi_item :
  let st := render_and_report [point_feature 2.125 41.375 [("building", JStr "yes")]]
              "Paris" 1700000000000 loaded_page in
  map category (obj_values (layers st)) = ["poi"]
  /\ In "poi" (obj_keys CATEGORIES)
  /\ ~ In "poi" (map item_category (legend st))
  /\ length (legend st) = 25
  /\ length CATEGORIES = 26.
Proof.
  repeat split; try (vm_compute; tauto).
  vm_compute. intros H.
  repeat (destruct H as [H|H]; [discriminate|]). exact H.
Qed.

(** C5 (amended): with the legend items [initLegend] made (they are there
    once the page has loaded, and stay), every event that changes the store
    and does not end in an error leaves the legend in step with the store:
    one item for every category of the table except "poi", in table order,
    each showing the number of markers over all layers of its category,
    active and with its remove button shown exactly when that number is
    positive. *)
Theorem legend_in_step e st :
  legend_loaded st ->
  aborts e st = false ->
  layers (handle e st) <> layers st ->
  let st' := handle e st in
  legend st' = expected_legend (layers st')
  /\ map item_category (legend st')
     = filter (fun k => negb (k =? "poi")%string) (obj_keys CATEGORIES)
  /\ Forall
       (fun item =>
          item_count item = total_markers (item_category item) (layers st')
          /\ item_active item = (0 <? item_count item)%nat
          /\ remove_display item
             = if (0 <? item_count item)%nat then "flex" else "none")
       (legend st').
Proof.
  intros Hs Hab Hch st'.
  assert (H : synced st') by now apply synced_handle.
  split; [exact H|]. rewrite H. split.
  - unfold expected_legend. rewrite map_map. reflexivity.
  - unfold expected_legend. apply Forall_forall. intros item Hin.
    apply in_map_iff in Hin as (e0 & <- & _). cbn. auto.
Qed.

Lemma legend_in_step_witness :
  legend (handle (Query three_of_five "Paris" 1700000000000) loaded_page)
  = expected_legend
      (layers (handle (Query three_of_five "Paris" 1700000000000) loaded_page)).
Proof.
  refine (proj1 (legend_in_step (Query three_of_five "Paris" 1700000000000)
                   loaded_page _ _ _)).
  - exists []. reflexivity.
  - reflexivity.
  - discriminate.
Defined.

End RenderClaims.

(** ** Query normalisation *)

Module NormalizeFacts.
Import Js Normalize.

(** *** Prefixes and occurrences *)

Lemma strip_prefix_app p t : strip_prefix p (p ++ t) = Some t.
Proof.
  induction p as [|a p IH]; cbn; [reflexivity|]. now rewrite N.eqb_refl.
Qed.

Lemma strip_prefix_Some p : forall s t, strip_prefix p s = Some t -> s = p ++ t.
Proof.
  induction p as [|a p IH]; intros s t; cbn.
  - now intros [= ->].
  - destruct s as [|b s]; [discriminate|].
    destruct (N.eqb_spec a b) as [->|]; [|discriminate].
    intros H. now rewrite (IH _ _ H).
Qed.

Lemma startsWith_true p s : startsWith p s = true -> exists t, s = p ++ t.
Proof.
  unfold startsWith. destruct (strip_prefix p s) as [t|] eqn:E; [|discriminate].
  intros _. exists t. now apply strip_prefix_Some.
Qed.

Lemma startsWith_app p s t : startsWith p s = true -> startsWith p (s ++ t) = true.
Proof.
  intros [u ->]%startsWith_true. unfold startsWith.
  now rewrite <- app_assoc, strip_prefix_app.
Qed.

Lemma includes_app p s t : includes p s = true -> includes p (s ++ t) = true.
Proof.
  induction s as [|c s IH]; cbn [includes app].
  - rewrite orb_false_r. intros H. apply (startsWith_app _ _ t) in H.
    cbn [app] in H. destruct t; cbn [includes]; now rewrite H.
  - intros [H|H]%orb_true_iff.
    + apply (startsWith_app _ _ t) in H. cbn [app] in H. now rewrite H.
    + rewrite (IH H). apply orb_true_r.
Qed.

(** A prefix [p] of [c ++ m] lies within [c] when the first code unit of
    [m] does not occur in [p]. *)
Lemma startsWith_before p h m : forall c,
  existsb (N.eqb h) p = false ->
  startsWith p (c ++ h :: m) = true -> startsWith p c = true.
Proof.
  unfold startsWith.
  induction p as [|a p IH]; intros c Hh; [reflexivity|].
  cbn [existsb] in Hh. apply orb_false_iff in Hh as [Ha Hp].
  destruct c as [|b c]; cbn [app strip_prefix].
  - rewrite N.eqb_sym, Ha. discriminate.
  - destruct (a =? b)%N; [|discriminate]. now apply IH.
Qed.

Lemma includes_before p h m : forall c,
  existsb (N.eqb h) p = false ->
  includes p (h :: m) = false ->
  includes p (c ++ h :: m) = true -> includes p c = true.
Proof.
  intros c Hh Hm. induction c as [|b c IH]; cbn [app].
  - rewrite Hm. discriminate.
  - cbn [includes]. intros [H|H]%orb_true_iff.
    + apply (startsWith_before p h m (b :: c) Hh) in H. now rewrite H.
    + rewrite (IH H). apply orb_true_r.
Qed.

Lemma replace_str_prefix pat rep s t :
  strip_prefix pat s = Some t -> replace_str pat rep s = rep ++ t.
Proof. intros H. destruct s; cbn [replace_str]; now rewrite H. Qed.

(** *** White space at the ends *)

Lemma lead_ok_trimStart s : lead_ok (trimStart s) = true.
Proof.
  induction s as [|c s IH]; [reflexivity|]. cbn [trimStart].
  destruct (is_ws c) eqn:E; [exact IH|]. cbn. now rewrite E.
Qed.

Lemma trimStart_lead_ok s : lead_ok s = true -> trimStart s = s.
Proof.
  destruct s as [|c s]; [reflexivity|]. cbn.
  now intros ->%negb_true_iff.
Qed.

Lemma lead_ok_app s t :
  lead_ok s = true -> lead_ok t = true -> lead_ok (s ++ t) = true.
Proof. destruct s; cbn; auto. Qed.

Lemma lead_ok_app_inv s t : lead_ok (t ++ s) = true -> lead_ok t = true.
Proof. destruct t; cbn; auto. Qed.

Lemma tail_ok_app s t :
  tail_ok s = true -> tail_ok t = true -> tail_ok (s ++ t) = true.
Proof.
  unfold tail_ok. rewrite rev_app_distr. intros Hs Ht. now apply lead_ok_app.
Qed.

Lemma tail_ok_app_inv s t : tail_ok (s ++ t) = true -> tail_ok t = true.
Proof. unfold tail_ok. rewrite rev_app_distr. apply lead_ok_app_inv. Qed.

Lemma tail_ok_trim s : tail_ok (trim s) = true.
Proof.
  unfold tail_ok, trim, trimEnd. rewrite rev_involutive.
  apply lead_ok_trimStart.
Qed.

Lemma trim_fixed s : lead_ok s = true -> tail_ok s = true -> trim s = s.
Proof.
  intros Hl Ht. unfold trim, trimEnd.
  rewrite (trimStart_lead_ok s Hl), (trimStart_lead_ok (rev s) Ht).
  apply rev_involutive.
Qed.

(** *** The three regular expressions *)

Lemma re_out_body_Some r n :
  re_out_body r = Some n ->
  (r = str ";out body" /\ n = 9) \/ (r = str ";out body;" /\ n = 10).
Proof.
  unfold re_out_body.
  destruct (strip_prefix (str ";out body") r) as [t|] eqn:E; [|discriminate].
  apply strip_prefix_Some in E. subst r.
  destruct t as [|c [|d t]]; try discriminate.
  - intros [= <-]. left. split; [apply app_nil_r | reflexivity].
  - destruct (N.eqb_spec c 59) as [->|]; [|discriminate].
    intros [= <-]. right. split; reflexivity.
Qed.

Lemma re_close_end_Some r n :
  re_close_end r = Some n -> r = str ");" /\ n = 2.
Proof.
  unfold re_close_end. destruct r as [|a [|b [|c r]]]; try discriminate.
  destruct (N.eqb_spec a 41) as [->|]; [|discriminate].
  destruct (N.eqb_spec b 59) as [->|]; [|discriminate].
  intros [= <-]. split; reflexivity.
Qed.

Lemma re_out_body_anchored : anchored re_out_body.
Proof.
  intros r n [[-> ->]|[-> ->]]%re_out_body_Some; split; (reflexivity || discriminate).
Qed.

(** For such an expression the [g] flag changes nothing. *)
Lemma re_replace_all_anchored re rep :
  anchored re ->
  forall s fuel, length s < fuel ->
  re_replace_all_from fuel re rep s = re_replace re rep s.
Proof.
  intros Han. induction s as [|c s IH]; intros fuel Hf;
    (destruct fuel as [|fuel]; [cbn in Hf; lia|]);
    cbn [re_replace_all_from re_replace].
  - destruct (re []) as [n|] eqn:E; [|reflexivity].
    destruct (Han _ _ E) as [-> Hn]. now contradiction Hn.
  - destruct (re (c :: s)) as [n|] eqn:E.
    + destruct (Han _ _ E) as [-> _]. cbn [length skipn].
      rewrite skipn_all. f_equal.
      destruct fuel as [|fuel]; [reflexivity|]. cbn [re_replace_all_from].
      destruct (re []) as [n|] eqn:E'; [|reflexivity].
      destruct (Han _ _ E') as [-> Hn]. now contradiction Hn.
    + f_equal. apply IH. cbn in Hf. lia.
Qed.

Lemma out_geom_replace s :
  out_geom s = re_replace re_out_body (str ";out geom;") s.
Proof.
  unfold out_geom, re_replace_all.
  apply re_replace_all_anchored; [apply re_out_body_anchored | lia].
Qed.

(** A replacement leaves a text alone that ends in [y] when the expression
    matches neither within [y] nor at any text that ends in [y]. *)
Lemma re_replace_ends re rep y :
  re_replace re rep y = y ->
  (forall c, re (c ++ y) = None) ->
  forall c, re_replace re rep (c ++ y) = c ++ y.
Proof.
  intros Hy Hno. induction c as [|x c IH]; [exact Hy|].
  cbn [app re_replace].
  change (x :: c ++ y) with ((x :: c) ++ y). rewrite Hno.
  cbn [app]. now rewrite IH.
Qed.

Ltac length_clash E :=
  let L := fresh in
  pose proof (f_equal (@length _) E) as L;
  rewrite length_app in L; cbn in L; lia.

Lemma re_out_body_geom c : re_out_body (c ++ str ";out geom;") = None.
Proof.
  destruct (re_out_body _) as [n|] eqn:E; [|reflexivity].
  apply re_out_body_Some in E as [[E _]|[E _]].
  - length_clash E.
  - destruct c; [discriminate E | length_clash E].
Qed.

Lemma re_out_body_limit c : re_out_body (c ++ str "out geom 500;") = None.
Proof.
  destruct (re_out_body _) as [n|] eqn:E; [|reflexivity].
  apply re_out_body_Some in E as [[E _]|[E _]]; length_clash E.
Qed.

Lemma re_close_end_limit c : re_close_end (c ++ str "out geom 500;") = None.
Proof.
  destruct (re_close_end _) as [n|] eqn:E; [|reflexivity].
  apply re_close_end_Some in E as [E _]. length_clash E.
Qed.

(** What line 75 does: a text that ends in [;out body] or [;out body;] gets
    that end replaced, any other text stays. *)
Lemma out_geom_cases s :
  out_geom s = s
  \/ exists c,
       (s = c ++ str ";out body" \/ s = c ++ str ";out body;")
       /\ out_geom s = c ++ str ";out geom;".
Proof.
  rewrite out_geom_replace.
  induction s as [|x s IH]; cbn [re_replace].
  - destruct (re_out_body []) eqn:E; [|now left].
    apply re_out_body_Some in E as [[E _]|[E _]]; discriminate E.
  - destruct (re_out_body (x :: s)) as [n|] eqn:E.
    + right. exists [].
      apply re_out_body_Some in E as [[E ->]|[E ->]]; rewrite E;
        (split; [auto | reflexivity]).
    + destruct IH as [IH|(c & Hc & IH)].
      * left. now rewrite IH.
      * right. exists (x :: c). rewrite IH. split; [|reflexivity].
        destruct Hc as [->| ->]; auto.
Qed.

(** What line 79 does: a text that ends in [);] gets [out geom 500;]
    appended, any other text stays. *)
Lemma re_close_end_cases s :
  re_replace re_close_end (str ");out geom 500;") s = s
  \/ re_replace re_close_end (str ");out geom 500;") s = s ++ str "out geom 500;".
Proof.
  induction s as [|x s IH]; cbn [re_replace].
  - now left.
  - destruct (re_close_end (x :: s)) as [n|] eqn:E.
    + right. apply re_close_end_Some in E as [E ->]. rewrite E. reflexivity.
    + destruct IH as [-> | ->]; auto.
Qed.

Lemma add_limit_cases s :
  add_limit s = s \/ add_limit s = s ++ str "out geom 500;".
Proof.
  unfold add_limit. destruct (re_test re_union_close s); cbn [negb]; [now left|].
  apply re_close_end_cases.
Qed.

(** *** The header survives the two rewrites *)

Lemma headed_add_header q : headed (add_header q).
Proof.
  unfold add_header, headed.
  pose proof (tail_ok_trim q) as Ht.
  destruct (startsWith OUT_JSON (trim q)) eqn:Hs; cbn [negb].
  - destruct (includes TIMEOUT_OPEN (trim q)) eqn:Hi; cbn [negb]; [auto|].
    unfold startsWith in Hs.
    destruct (strip_prefix OUT_JSON (trim q)) as [t|] eqn:E; [|discriminate].
    rewrite (replace_str_prefix _ _ _ _ E).
    apply strip_prefix_Some in E. rewrite E in Ht.
    apply tail_ok_app_inv in Ht.
    split; [reflexivity|]. split.
    + apply includes_app. reflexivity.
    + apply tail_ok_app; [reflexivity | exact Ht].
  - split; [reflexivity|]. split.
    + apply includes_app. reflexivity.
    + apply tail_ok_app; [reflexivity | exact Ht].
Qed.

Lemma add_header_headed s : headed s -> add_header s = s.
Proof.
  intros (Hs & Hi & Ht). unfold add_header.
  assert (Hl : lead_ok s = true).
  { apply startsWith_true in Hs as [t ->]. reflexivity. }
  rewrite (trim_fixed s Hl Ht), Hs, Hi. reflexivity.
Qed.

Lemma tail_ok_app_r s y :
  y <> [] -> tail_ok y = true -> tail_ok (s ++ y) = true.
Proof.
  unfold tail_ok. rewrite rev_app_distr. intros Hy.
  destruct (rev y) eqn:E; [|auto].
  apply (f_equal (@rev _)) in E. rewrite rev_involutive in E. contradiction.
Qed.

Lemma headed_app s y :
  startsWith OUT_JSON s = true ->
  includes TIMEOUT_OPEN s = true ->
  y <> [] -> tail_ok y = true ->
  headed (s ++ y).
Proof.
  intros Hs Hi Hy Ht. split; [|split].
  - now apply startsWith_app.
  - now apply includes_app.
  - now apply tail_ok_app_r.
Qed.

Lemma headed_out_geom s : headed s -> headed (out_geom s).
Proof.
  intros H. destruct (out_geom_cases s) as [->|(c & Hc & ->)]; [exact H|].
  destruct H as (Hs & Hi & _).
  assert (Hc' : exists m, s = c ++ 59%N :: m
                          /\ includes TIMEOUT_OPEN (59%N :: m) = false).
  { destruct Hc as [-> | ->]; eexists; split; reflexivity. }
  destruct Hc' as (m & -> & Hm).
  apply headed_app; [| |discriminate|reflexivity].
  - now apply (startsWith_before OUT_JSON 59%N m c).
  - now apply (includes_before TIMEOUT_OPEN 59%N m c).
Qed.

Lemma headed_add_limit s : headed s -> headed (add_limit s).
Proof.
  intros H. destruct (add_limit_cases s) as [-> | ->]; [exact H|].
  destruct H as (Hs & Hi & _).
  apply headed_app; [assumption|assumption|discriminate|reflexivity].
Qed.

(** *** Each rewrite leaves its own results alone *)

Lemma out_geom_idempotent s : out_geom (out_geom s) = out_geom s.
Proof.
  destruct (out_geom_cases s) as [E|(c & _ & ->)]; [now rewrite !E|].
  rewrite out_geom_replace.
  apply re_replace_ends; [reflexivity | apply re_out_body_geom].
Qed.

Lemma out_geom_limit s :
  out_geom (s ++ str "out geom 500;") = s ++ str "out geom 500;".
Proof.
  rewrite out_geom_replace.
  apply re_replace_ends; [reflexivity | apply re_out_body_limit].
Qed.

Lemma add_limit_idempotent s : add_limit (add_limit s) = add_limit s.
Proof.
  destruct (add_limit_cases s) as [E | ->]; [now rewrite !E|].
  unfold add_limit.
  destruct (re_test re_union_close (s ++ str "out geom 500;")); cbn [negb];
    [reflexivity|].
  apply re_replace_ends; [reflexivity | apply re_close_end_limit].
Qed.

Lemma out_geom_add_limit s :
  out_geom (add_limit (out_geom s)) = add_limit (out_geom s).
Proof.
  destruct (add_limit_cases (out_geom s)) as [-> | ->].
  - apply out_geom_idempotent.
  - apply out_geom_limit.
Qed.

Lemma headed_normalize query : headed (normalize query).
Proof. apply headed_add_limit, headed_out_geom, headed_add_header. Qed.

(** C8: normalising a normalised query changes nothing. *)
Theorem normalize_idempotent query :
  normalize (normalize query) = normalize query.
Proof.
  unfold normalize at 1.
  rewrite (add_header_headed _ (headed_normalize query)). unfold normalize.
  now rewrite out_geom_add_limit, add_limit_idempotent.
Qed.

(** C3 (the code at failing inputs): a query without [[out:json]] gets the
    header, but one that ends in [out body;], with or without a union before
    it, comes out ending in [out geom;] with no limit of 500, and a union
    that ends in [);] comes out as it is; a single statement that ends in
    [);] does get [out geom 500;]. *)
Theorem normalize_without_limit :
  includes OUT_JSON (str "node[amenity=cafe](1,2,3,4);out body;") = false
  /\ normalize (str "node[amenity=cafe](1,2,3,4);out body;")
     = str "[out:json][timeout:25];node[amenity=cafe](1,2,3,4);out geom;"
  /\ endsWith (str "out geom 500;")
       (normalize (str "node[amenity=cafe](1,2,3,4);out body;")) = false
  /\ includes (str "500")
       (normalize (str "node[amenity=cafe](1,2,3,4);out body;")) = false
  /\ normalize (str "(node[amenity=cafe](1,2,3,4);way[amenity=cafe](1,2,3,4););out body;")
     = str "[out:json][timeout:25];(node[amenity=cafe](1,2,3,4);way[amenity=cafe](1,2,3,4););out geom;"
  /\ normalize (str "(node[amenity=cafe](1,2,3,4);way[amenity=cafe](1,2,3,4););")
     = str "[out:json][timeout:25];(node[amenity=cafe](1,2,3,4);way[amenity=cafe](1,2,3,4););"
  /\ normalize (str "node[amenity=cafe](1,2,3,4);")
     = str "[out:json][timeout:25];node[amenity=cafe](1,2,3,4);out geom 500;".
Proof. repeat split; vm_compute; reflexivity. Qed.

End NormalizeFacts.


(** ** More on the query normalisation *)

Module NormalizeMore.
Import Js Normalize NormalizeFacts Page.

Lemma endsWith_true p s : endsWith p s = true <-> exists c, s = c ++ p.
Proof.
  unfold endsWith. split.
  - intros [t Ht]%startsWith_true. exists (rev t).
    apply (f_equal (@rev _)) in Ht.
    now rewrite rev_involutive, rev_app_distr, rev_involutive in Ht.
  - intros [c ->]. rewrite rev_app_distr. unfold startsWith.
    now rewrite strip_prefix_app.
Qed.

Lemma endsWith_false p s : endsWith p s = false <-> forall c, s <> c ++ p.
Proof.
  split.
  - intros H c E. assert (endsWith p s = true) by (apply endsWith_true; eauto).
    congruence.
  - intros H. destruct (endsWith p s) eqn:E; [|reflexivity].
    apply endsWith_true in E as [c E]. now destruct (H c).
Qed.

(** *** Shape of every result *)

(** Whatever the query, the text sent starts with [[out:json]], has a
    [[timeout:] in it, and has no white space at either end. *)
Theorem normalize_shape query :
  startsWith OUT_JSON (normalize query) = true
  /\ includes TIMEOUT_OPEN (normalize query) = true
  /\ trim (normalize query) = normalize query.
Proof.
  destruct (headed_normalize query) as (Hs & Hi & Ht).
  repeat split; try assumption.
  apply trim_fixed; [|exact Ht].
  apply startsWith_true in Hs as [t ->]. reflexivity.
Qed.

(** *** The header of a query that has none *)

Lemma out_geom_keeps_header s :
  startsWith (str "[out:json][timeout:25];") (str "[out:json][timeout:25];" ++ s) = true ->
  startsWith (str "[out:json][timeout:25];")
    (out_geom (str "[out:json][timeout:25];" ++ s)) = true.
Proof.
  intros H0.
  destruct (out_geom_cases (str "[out:json][timeout:25];" ++ s))
    as [->|(c & Hc & ->)]; [exact H0|].
  assert (Hm : exists m, str "[out:json][timeout:25];" ++ s = c ++ 59%N :: m).
  { destruct Hc as [-> | ->]; eexists; reflexivity. }
  destruct Hm as [m Hm].
  assert (Hp : startsWith (str "[out:json][timeout:25]") c = true).
  { apply (startsWith_before _ 59%N m c); [reflexivity|].
    transitivity
      (startsWith (str "[out:json][timeout:25]")
         (str "[out:json][timeout:25];" ++ s));
      [f_equal; symmetry; exact Hm | reflexivity]. }
  apply startsWith_true in Hp as [c' ->].
  rewrite <- app_assoc in *.
  change (str "[out:json][timeout:25];")
    with (str "[out:json][timeout:25]" ++ [59%N]) in Hm.
  rewrite <- app_assoc in Hm. apply app_inv_head in Hm.
  destruct c' as [|x c']; [reflexivity|].
  cbn [app] in Hm. injection Hm as <- _. reflexivity.
Qed.

(** A query that, once trimmed, does not start with [[out:json]] is sent
    with [[out:json][timeout:25];] in front. *)
Theorem normalize_adds_header query :
  startsWith OUT_JSON (trim query) = false ->
  startsWith (str "[out:json][timeout:25];") (normalize query) = true.
Proof.
  intros H. unfold normalize, add_header. rewrite H. cbn [negb].
  destruct (add_limit_cases
              (out_geom (str "[out:json][timeout:25];" ++ trim query)))
    as [-> | ->].
  - now apply out_geom_keeps_header.
  - apply startsWith_app. now apply out_geom_keeps_header.
Qed.

Lemma normalize_adds_header_witness :
  startsWith (str "[out:json][timeout:25];")
    (normalize (str "  out body")) = true.
Proof. apply normalize_adds_header. reflexivity. Defined.

(** *** [out body] never survives *)

Lemma re_replace_suffix re rep y n :
  re y = Some n -> skipn n y = [] ->
  (forall x c, re (x :: c ++ y) = None) ->
  forall c, re_replace re rep (c ++ y) = c ++ rep.
Proof.
  intros Hy Hn Hno. induction c as [|x c IH]; cbn [app].
  - destruct y; cbn [re_replace]; rewrite Hy, Hn; apply app_nil_r.
  - cbn [re_replace]. rewrite Hno. now rewrite IH.
Qed.

Lemma out_geom_semicolon c :
  out_geom (c ++ str ";out body;") = c ++ str ";out geom;".
Proof.
  rewrite out_geom_replace.
  apply (re_replace_suffix re_out_body _ _ 10); [reflexivity|reflexivity|].
  intros x c'. destruct (re_out_body _) as [n|] eqn:E; [|reflexivity].
  change (x :: c' ++ ?y) with ((x :: c') ++ y) in E.
  apply re_out_body_Some in E as [[E _]|[E _]]; length_clash E.
Qed.

Lemma out_geom_bare c :
  out_geom (c ++ str ";out body") = c ++ str ";out geom;".
Proof.
  rewrite out_geom_replace.
  apply (re_replace_suffix re_out_body _ _ 9); [reflexivity|reflexivity|].
  intros x c'. destruct (re_out_body _) as [n|] eqn:E; [|reflexivity].
  apply re_out_body_Some in E as [[E _]|[E _]].
  - change (x :: c' ++ ?y) with ((x :: c') ++ y) in E. length_clash E.
  - destruct c' as [|z c'].
    + cbv in E. discriminate E.
    + change (x :: (z :: c') ++ ?y) with ((x :: z :: c') ++ y) in E.
      length_clash E.
Qed.

Lemma out_geom_no_out_body s c :
  out_geom s <> c ++ str ";out body;" /\ out_geom s <> c ++ str ";out body".
Proof.
  pose proof (out_geom_idempotent s) as Hi.
  split; intros E; rewrite E in Hi.
  - rewrite out_geom_semicolon in Hi. apply app_inv_head in Hi. discriminate Hi.
  - rewrite out_geom_bare in Hi. apply app_inv_head in Hi. discriminate Hi.
Qed.

(** Line 75 rewrites [;out body] and [;out body;] at the very end of the
    text to [;out geom;] and nothing else: a text with another end, an
    [out body;] after a line break for one, is left as it is.  So no text
    sent ends in [;out body] or [;out body;], while one may still end in
    [out body;]. *)
Theorem normalize_never_out_body query :
  endsWith (str ";out body") (normalize query) = false
  /\ endsWith (str ";out body;") (normalize query) = false
  /\ (forall c, out_geom (c ++ str ";out body") = c ++ str ";out geom;")
  /\ (forall c, out_geom (c ++ str ";out body;") = c ++ str ";out geom;")
  /\ (endsWith (str ";out body") query = false ->
      endsWith (str ";out body;") query = false ->
      out_geom query = query)
  /\ normalize (str "node(1);" ++ [10%N] ++ str "out body;")
     = str "[out:json][timeout:25];node(1);" ++ [10%N] ++ str "out body;".
Proof.
  split; [|split].
  1-2: unfold normalize;
    set (t := out_geom (add_header query));
    apply endsWith_false; intros c E;
    (destruct (add_limit_cases t) as [H|H]; rewrite H in E;
     [ now apply (out_geom_no_out_body (add_header query) c) in E
     | apply (f_equal (fun l => firstn 2 (rev l))) in E;
       rewrite !rev_app_distr in E; cbn in E; discriminate E ]).
  split; [exact out_geom_bare|]. split; [exact out_geom_semicolon|].
  split; [|vm_compute; reflexivity].
  intros H1 H2. destruct (out_geom_cases query) as [E|(c & [Hc|Hc] & _)].
  - exact E.
  - exfalso. apply (proj1 (endsWith_false _ _) H1 c). exact Hc.
  - exfalso. apply (proj1 (endsWith_false _ _) H2 c). exact Hc.
Qed.

Lemma normalize_never_out_body_witness :
  out_geom (str "node(1);out meta;") = str "node(1);out meta;".
Proof.
  apply (proj1 (proj2 (proj2 (proj2 (proj2
           (normalize_never_out_body (str "node(1);out meta;")))))));
    reflexivity.
Defined.

(** *** When the limit is added *)

Lemma trimStart_split s :
  exists w, s = w ++ trimStart s /\ forallb is_ws w = true.
Proof.
  induction s as [|c s (w & Hw & Hws)]; [now exists []|].
  cbn [trimStart]. destruct (is_ws c) eqn:E.
  - exists (c :: w). cbn. rewrite E, Hws. split; [now f_equal|reflexivity].
  - now exists [].
Qed.

Lemma trimStart_ws w s : forallb is_ws w = true -> trimStart (w ++ s) = trimStart s.
Proof.
  induction w as [|c w IH]; [reflexivity|]. cbn.
  intros [-> H]%andb_true_iff. auto.
Qed.

Lemma re_union_close_Some r :
  (exists n, re_union_close r = Some n)
  <-> exists w b, r = str ");" ++ w ++ str ")" ++ b /\ forallb is_ws w = true.
Proof.
  unfold re_union_close. split.
  - intros [n H]. destruct r as [|a [|b r]]; try discriminate.
    destruct (N.eqb_spec a 41) as [->|]; [|discriminate].
    destruct (N.eqb_spec b 59) as [->|]; [|discriminate].
    cbn [andb] in H. destruct (trimStart_split r) as (w & Hw & Hws).
    destruct (trimStart r) as [|c t]; [discriminate|].
    destruct (N.eqb_spec c 41) as [->|]; [|discriminate].
    exists w, t. split; [|exact Hws]. cbn. now rewrite Hw at 1.
  - intros (w & b & -> & Hw). cbn. rewrite (trimStart_ws w _ Hw). cbn. eauto.
Qed.

Lemma re_test_closes_union s :
  re_test re_union_close s = true <-> closes_union s.
Proof.
  induction s as [|c s IH]; cbn [re_test].
  - split; [discriminate|]. intros (a & w & b & E & _).
    destruct a; discriminate E.
  - destruct (re_union_close (c :: s)) as [n|] eqn:E.
    + split; [|reflexivity]. intros _.
      destruct (proj1 (re_union_close_Some (c :: s))) as (w & b & Hr & Hw); [eauto|].
      exists [], w, b. now split.
    + rewrite IH. split.
      * intros (a & w & b & -> & Hw). exists (c :: a), w, b. now split.
      * intros (a & w & b & Hr & Hw). destruct a as [|x a].
        -- assert (exists n, re_union_close (c :: s) = Some n) as [n Hn]
             by (apply re_union_close_Some; eauto).
           congruence.
        -- injection Hr as _ ->. exists a, w, b. now split.
Qed.

Lemma re_close_end_absent s :
  (forall c, s <> c ++ str ");") ->
  re_replace re_close_end (str ");out geom 500;") s = s.
Proof.
  induction s as [|x s IH]; intros H; cbn [re_replace]; [reflexivity|].
  destruct (re_close_end (x :: s)) as [n|] eqn:E.
  - apply re_close_end_Some in E as [E _]. now destruct (H []).
  - f_equal. apply IH. intros c ->. now apply (H (x :: c)).
Qed.

Lemma re_close_end_present c :
  re_replace re_close_end (str ");out geom 500;") (c ++ str ");")
  = (c ++ str ");") ++ str "out geom 500;".
Proof.
  rewrite <- app_assoc.
  apply (re_replace_suffix re_close_end _ _ 2); [reflexivity|reflexivity|].
  intros x c'. destruct c' as [|y [|z c']]; reflexivity.
Qed.

(** The limit [out geom 500;] is appended exactly to a text that ends in
    [);] and has no [);] followed by [)]; every other text is left as it
    is, whether or not it has a limit. *)
Theorem add_limit_when s :
  (closes_union s -> add_limit s = s)
  /\ ((forall c, s <> c ++ str ");") -> add_limit s = s)
  /\ (~ closes_union s ->
      forall c, s = c ++ str ");" -> add_limit s = s ++ str "out geom 500;").
Proof.
  unfold add_limit. repeat split.
  - intros H%re_test_closes_union. now rewrite H.
  - intros H. destruct (re_test re_union_close s); cbn [negb]; [reflexivity|].
    now apply re_close_end_absent.
  - intros Hn c ->.
    destruct (re_test re_union_close (c ++ str ");")) eqn:E.
    + now apply re_test_closes_union in E.
    + cbn [negb]. apply re_close_end_present.
Qed.

Lemma add_limit_when_witness :
  add_limit (str "node(1);") = str "node(1);" ++ str "out geom 500;".
Proof.
  refine (proj2 (proj2 (add_limit_when (str "node(1);"))) _ (str "node(1") _).
  - intros H%re_test_closes_union. discriminate H.
  - reflexivity.
Defined.

(** *** White space around the query *)

Lemma trimStart_all_ws w : forallb is_ws w = true -> trimStart w = [].
Proof.
  intros H. rewrite <- (app_nil_r w). now rewrite trimStart_ws.
Qed.

Lemma trimStart_app_keep s r : trimStart s <> [] -> trimStart (s ++ r) = trimStart s ++ r.
Proof.
  induction s as [|c s IH]; cbn; [congruence|].
  destruct (is_ws c); auto.
Qed.

Lemma trimStart_nil_ws s : trimStart s = [] -> forallb is_ws s = true.
Proof.
  induction s as [|c s IH]; cbn; [reflexivity|].
  destruct (is_ws c); [auto|discriminate].
Qed.

Lemma trimEnd_ws s r : forallb is_ws r = true -> trimEnd (s ++ r) = trimEnd s.
Proof.
  intros H. unfold trimEnd. rewrite rev_app_distr, trimStart_ws; [reflexivity|].
  rewrite forallb_forall in *. intros x Hx. apply H. now apply in_rev.
Qed.

Lemma trim_ws_around l q r :
  forallb is_ws l = true -> forallb is_ws r = true ->
  trim (l ++ q ++ r) = trim q.
Proof.
  intros Hl Hr. unfold trim. rewrite (trimStart_ws l _ Hl).
  destruct (trimStart q) as [|c t] eqn:E.
  - rewrite (trimStart_all_ws (q ++ r)); [reflexivity|].
    rewrite forallb_app, Hr, (trimStart_nil_ws q E). reflexivity.
  - rewrite trimStart_app_keep by congruence. rewrite E.
    now apply trimEnd_ws.
Qed.

(** White space before and after the query makes no difference to the text
    sent. *)
Theorem normalize_ws_around l query r :
  forallb is_ws l = true -> forallb is_ws r = true ->
  normalize (l ++ query ++ r) = normalize query.
Proof.
  intros Hl Hr. unfold normalize, add_header.
  now rewrite (trim_ws_around l query r Hl Hr).
Qed.

Lemma normalize_ws_around_witness :
  normalize (str " " ++ str "node(1);" ++ [10%N; 9%N]) = normalize (str "node(1);").
Proof. apply normalize_ws_around; reflexivity. Defined.

End NormalizeMore.

(** ** More on the layers and the rendering *)

Module StoreMore.
Import Value Taxonomy Geometry App Page ObjFacts TaxonomyFacts AppFacts.

(** *** Objects, continued *)

Lemma obj_delete_filter {A} (o : obj A) k :
  obj_delete o k = filter (fun e => negb (fst e =? k)%string) o.
Proof.
  induction o as [|[k0 v0] o IH]; cbn; [reflexivity|].
  destruct (k0 =? k)%string; cbn; now rewrite IH.
Qed.

Lemma obj_get_filter_key {A} (o : obj A) (keep : string -> bool) k :
  obj_get (filter (fun e => keep (fst e)) o) k
  = if keep k then obj_get o k else None.
Proof.
  induction o as [|[k0 v0] o IH]; cbn [filter fst obj_get].
  - now destruct (keep k).
  - destruct (keep k0) eqn:E0; cbn [obj_get];
      destruct (String.eqb_spec k0 k) as [->|]; rewrite ?IH, ?E0; reflexivity.
Qed.

Lemma obj_get_None_keys {A} (o : obj A) k :
  obj_get o k = None <-> ~ In k (obj_keys o).
Proof.
  induction o as [|[k0 v0] o IH]; cbn; [tauto|].
  destruct (String.eqb_spec k0 k) as [->|Hne].
  - split; [discriminate|]. intros H. destruct H. now left.
  - rewrite IH. tauto.
Qed.

Lemma obj_keys_set {A} (o : obj A) k v :
  obj_keys (obj_set o k v)
  = match obj_get o k with Some _ => obj_keys o | None => obj_keys o ++ [k] end.
Proof.
  induction o as [|[k0 v0] o IH]; cbn [obj_set obj_get obj_keys map fst app];
    [reflexivity|].
  destruct (k0 =? k)%string; cbn [map fst]; [reflexivity|].
  unfold obj_keys in IH. rewrite IH.
  now destruct (obj_get o k).
Qed.

Lemma obj_set_NoDup {A} (o : obj A) k v :
  NoDup (obj_keys o) -> NoDup (obj_keys (obj_set o k v)).
Proof.
  intros H. rewrite obj_keys_set.
  destruct (obj_get o k) eqn:E; [exact H|].
  apply obj_get_None_keys in E.
  apply NoDup_app; [exact H | repeat constructor; intros [] | ].
  intros x Hx [<-|[]]. contradiction.
Qed.

Lemma obj_set_Forall {A} (P : string * A -> Prop) (o : obj A) k v :
  Forall P o -> P (k, v) -> Forall P (obj_set o k v).
Proof.
  intros Ho Hk. induction o as [|[k0 v0] o IH]; cbn [obj_set].
  - now constructor.
  - inversion Ho; subst.
    destruct (String.eqb_spec k0 k) as [->|]; constructor; auto.
Qed.

Lemma filter_NoDup_keys {A} (o : obj A) (keep : string * A -> bool) :
  NoDup (obj_keys o) -> NoDup (obj_keys (filter keep o)).
Proof.
  unfold obj_keys. induction o as [|e o IH]; cbn; [auto|].
  intros H. inversion H; subst.
  destruct (keep e); cbn; [constructor|]; auto.
  intros Hin. apply in_map_iff in Hin as (e' & He' & Hin).
  apply filter_In in Hin as [Hin _].
  match goal with Hn : ~ In _ _ |- _ => apply Hn end.
  rewrite <- He'. now apply in_map.
Qed.

Lemma filter_Forall {A} (P : A -> Prop) (keep : A -> bool) (l : list A) :
  Forall P l -> Forall P (filter keep l).
Proof.
  rewrite !Forall_forall. intros H x [Hx _]%filter_In. auto.
Qed.

Lemma NoDup_keys_unique {A} (o : obj A) k v v' :
  NoDup (obj_keys o) -> In (k, v) o -> In (k, v') o -> v = v'.
Proof.
  unfold obj_keys. induction o as [|[k0 v0] o IH]; cbn; [tauto|].
  intros Hnd H1 H2. inversion Hnd as [|? ? Hn Hnd']; subst.
  destruct H1 as [H1|H1], H2 as [H2|H2].
  - congruence.
  - injection H1 as -> ->. destruct Hn. now apply (in_map fst) in H2.
  - injection H2 as -> ->. destruct Hn. now apply (in_map fst) in H1.
  - auto.
Qed.

Lemma fold_delete_filter {A} ids : forall o : obj A,
  fold_left (fun ls id => obj_delete ls id) ids o
  = filter (fun e => negb (existsb (String.eqb (fst e)) ids)) o.
Proof.
  induction ids as [|id ids IH]; intros o; cbn [fold_left existsb].
  - cbn. induction o; cbn; congruence.
  - rewrite IH, obj_delete_filter. clear IH.
    induction o as [|e o IHo]; cbn [filter]; [reflexivity|].
    destruct (fst e =? id)%string; cbn [negb orb filter]; rewrite IHo;
      [reflexivity|].
    now destruct (existsb _ ids).
Qed.

(** *** Removing layers *)

(** [removeLayer] takes away the layer under the identifier given, if there
    is one, and nothing else: the other layers stay, in their order, and
    the chat is not touched. *)
Theorem removeLayer_only layerId st :
  layers (removeLayer layerId st)
  = filter (fun e => negb (fst e =? layerId)%string) (layers st)
  /\ (forall id,
        obj_get (layers (removeLayer layerId st)) id
        = if (id =? layerId)%string then None else obj_get (layers st) id)
  /\ chat (removeLayer layerId st) = chat st.
Proof.
  assert (H : layers (removeLayer layerId st)
              = filter (fun e => negb (fst e =? layerId)%string) (layers st)).
  { unfold removeLayer. destruct (obj_get (layers st) layerId) eqn:E.
    - cbn. apply obj_delete_filter.
    - apply obj_get_None_keys in E. symmetry.
      apply forallb_filter_id, forallb_forall. intros [k v] Hin.
      cbn [fst]. destruct (String.eqb_spec k layerId) as [->|]; [|reflexivity].
      destruct E. apply (in_map fst) in Hin. exact Hin. }
  split; [exact H|]. split.
  - intros id. rewrite H.
    rewrite (obj_get_filter_key (layers st)
               (fun k => negb (k =? layerId)%string) id).
    now destruct (id =? layerId)%string.
  - unfold removeLayer. now destruct (obj_get (layers st) layerId).
Qed.

(** With every identifier held once, [removeCategoryLayers] takes away
    exactly the layers of the category given: the layers of other
    categories stay, in their order, with their markers. *)
Theorem removeCategoryLayers_only c st :
  NoDup (obj_keys (layers st)) ->
  layers (removeCategoryLayers c st)
  = filter (fun e => negb (category (snd e) =? c)%string) (layers st)
  /\ total_markers c (layers (removeCategoryLayers c st)) = 0
  /\ (forall c', c' <> c ->
        total_markers c' (layers (removeCategoryLayers c st))
        = total_markers c' (layers st)).
Proof.
  intros Hnd.
  assert (H : layers (removeCategoryLayers c st)
              = filter (fun e => negb (category (snd e) =? c)%string) (layers st)).
  { unfold removeCategoryLayers. cbn [layers updateLegend set_legend set_layers].
    rewrite fold_delete_filter. apply filter_ext_in. intros [k l] Hin.
    cbn [fst snd]. f_equal.
    destruct (category l =? c)%string eqn:E.
    - apply existsb_exists. exists k. split; [|apply String.eqb_refl].
      apply in_flat_map. exists (k, l). cbn. rewrite E. split; [exact Hin|now left].
    - destruct (existsb _ _) eqn:Ex; [|reflexivity].
      apply existsb_exists in Ex as (k' & Hk' & ->%String.eqb_eq).
      apply in_flat_map in Hk' as ([k2 l2] & Hin2 & Hk2). cbn [fst snd] in Hk2.
      destruct (category l2 =? c)%string eqn:E2; [|destruct Hk2].
      destruct Hk2 as [<-|[]].
      assert (l2 = l) by exact (NoDup_keys_unique _ _ _ _ Hnd Hin2 Hin).
      congruence. }
  split; [exact H|]. rewrite H. clear H Hnd.
  unfold total_markers, obj_values. split.
  - induction (layers st) as [|[k l] o IH]; [reflexivity|].
    cbn [filter snd]. destruct (category l =? c)%string eqn:E; cbn [negb]; [exact IH|].
    cbn [map snd filter]. now rewrite E.
  - intros c' Hne.
    induction (layers st) as [|[k l] o IH]; [reflexivity|].
    cbn [filter snd map]. destruct (String.eqb_spec (category l) c) as [Ec|Ec];
      cbn [negb map snd filter].
    + destruct (String.eqb_spec (category l) c'); [congruence|exact IH].
    + destruct (category l =? c')%string; cbn [map list_sum]; unfold list_sum in *;
        cbn [fold_right]; now rewrite ?IH.
Qed.

Lemma removeCategoryLayers_only_witness :
  let st := render_and_report two_museums "Barcelona" 1700000000001
              (render_and_report three_of_five "Paris" 1700000000000 loaded_page) in
  obj_keys (layers (removeCategoryLayers "cafe" st))
  = ["museum_Barcelona_1700000000001"].
Proof.
  intros st.
  assert (Hnd : NoDup (obj_keys (layers st))).
  { repeat constructor; cbn; intuition discriminate. }
  rewrite (proj1 (removeCategoryLayers_only "cafe" st Hnd)).
  reflexivity.
Defined.

(** [clearAllLayers] leaves no layer, and every legend item at count 0,
    inactive, with its remove button hidden, whatever it showed before;
    the items themselves and the chat stay. *)
Theorem clearAllLayers_resets st :
  layers (clearAllLayers st) = []
  /\ map item_category (legend (clearAllLayers st)) = map item_category (legend st)
  /\ map item_label (legend (clearAllLayers st)) = map item_label (legend st)
  /\ Forall
       (fun item =>
          item_count item = 0 /\ item_active item = false
          /\ remove_display item = "none")
       (legend (clearAllLayers st))
  /\ chat (clearAllLayers st) = chat st.
Proof.
  unfold clearAllLayers, updateLegend.
  cbn [layers legend chat set_layers set_legend].
  rewrite !map_map. cbn [update_item item_category item_label].
  repeat split.
  apply Forall_forall. intros item (i0 & <- & _)%in_map_iff. now cbn.
Qed.

(** [updateLegend] twice is [updateLegend] once: it leaves nothing behind
    that a second run would change. *)
Theorem updateLegend_idempotent st :
  updateLegend (updateLegend st) = updateLegend st.
Proof.
  unfold updateLegend, set_legend. cbn [layers legend chat].
  f_equal. rewrite map_map. apply map_ext. reflexivity.
Qed.

(** *** The marker loop, feature by feature *)

Lemma marker_for_length cat col f : length (marker_for cat col f) <= 1.
Proof.
  unfold marker_for. destruct (geometry f) as [g|]; [|cbn; lia].
  destruct (getCentroid g) as [[c|]|]; cbn; lia.
Qed.

Lemma marker_for_icon cat col f :
  Forall (fun m => icon_category m = cat /\ icon_color m = col)
    (marker_for cat col f).
Proof.
  unfold marker_for. destruct (geometry f) as [g|]; [|constructor].
  destruct (getCentroid g) as [[c|]|]; repeat constructor.
Qed.

Lemma ringless_throws f :
  ringless f = true ->
  exists g msg, geometry f = Some g /\ getCentroid g = Throw msg.
Proof.
  unfold ringless. destruct (geometry f) as [[c|cs|cs|cs|rings|polygons|]|];
    try discriminate.
  - destruct rings; [|discriminate]. intros _.
    do 2 eexists. split; reflexivity.
  - destruct polygons as [|[|ring rings] polygons]; try discriminate;
      intros _; do 2 eexists; split; reflexivity.
Qed.

Lemma resolvable_returns f g :
  resolvable f = true -> geometry f = Some g -> exists r, getCentroid g = Return r.
Proof.
  unfold resolvable, ringless. intros H Hg. rewrite Hg in H.
  destruct g as [c|cs|cs|cs|rings|polygons|]; cbn; eauto.
  - destruct rings; [discriminate|]. cbn. eauto.
  - destruct polygons as [|[|ring rings] polygons]; try discriminate. cbn. eauto.
Qed.

Lemma place_feature_throw id cat col base l f p msg :
  store p = obj_set base id l ->
  place_feature id cat col f p = Throw msg ->
  ringless f = true.
Proof.
  intros Hp. unfold place_feature.
  destruct (ringless f) eqn:E; [reflexivity|].
  destruct (geometry f) as [g|] eqn:Eg; [|discriminate].
  destruct (resolvable_returns f g) as [r Hr];
    [unfold resolvable; now rewrite E | exact Eg |].
  rewrite Hr. destruct r as [[lng lat]|]; [|discriminate].
  rewrite Hp, obj_get_set_same. discriminate.
Qed.

Lemma place_feature_return id cat col f p p' :
  place_feature id cat col f p = Return p' -> resolvable f = true.
Proof.
  unfold resolvable. destruct (ringless f) eqn:E; [|reflexivity].
  destruct (ringless_throws f E) as (g & msg & Hg & Hthrow).
  unfold place_feature. rewrite Hg, Hthrow. discriminate.
Qed.

(** The loop places the markers of the features before the first one that
    makes [getCentroid] throw, which are all of them when there is none. *)
Lemma place_features_prefix id cat col base fs : forall l p,
  store p = obj_set base id l ->
  exists n,
    n <= length fs
    /\ forallb resolvable (firstn n fs) = true
    /\ store (fst (place_features id cat col fs p))
       = obj_set base id
           (push_markers l (flat_map (marker_for cat col) (firstn n fs)))
    /\ pointCount (fst (place_features id cat col fs p))
       = pointCount p + length (flat_map (marker_for cat col) (firstn n fs))
    /\ pointCount (fst (place_features id cat col fs p))
       + skippedCount (fst (place_features id cat col fs p))
       = pointCount p + skippedCount p + n
    /\ match snd (place_features id cat col fs p) with
       | None => n = length fs
       | Some msg => exists f, nth_error fs n = Some f /\ ringless f = true
       end.
Proof.
  induction fs as [|f fs IH]; intros l p Hp; cbn [place_features].
  - exists 0. cbn. rewrite push_markers_nil. repeat split; auto; lia.
  - destruct (place_feature id cat col f p) as [p'|msg] eqn:Hstep.
    + destruct (place_feature_step _ _ _ _ _ _ _ _ Hp Hstep) as (Hp' & Hpc & Hsc).
      destruct (IH _ _ Hp') as (n & Hn & Hres & Hst & Hpc' & Hsum & Hend).
      pose proof (marker_for_length cat col f) as Hlen.
      exists (S n). cbn [firstn flat_map forallb length nth_error].
      rewrite (place_feature_return _ _ _ _ _ _ Hstep), Hres, Hst, Hpc',
        push_markers_app, length_app.
      repeat split; try lia.
      destruct (snd (place_features id cat col fs p')); [exact Hend|now f_equal].
    + exists 0. cbn. rewrite push_markers_nil.
      repeat split; auto; try lia.
      exists f. split; [reflexivity|].
      exact (place_feature_throw _ _ _ _ _ _ _ _ Hp Hstep).
Qed.

(** What a rendering of a non-empty result set leaves behind. *)
Lemma renderData_prefix f fs place_name now st :
  let features := f :: fs in
  let category := detectedCategory features in
  let color := category_color category in
  exists n,
    n <= length features
    /\ forallb resolvable (firstn n features) = true
    /\ layers (fst (renderData features place_name now st))
       = obj_set (layers st) (layerId category place_name now)
           {| markers := flat_map (marker_for category color) (firstn n features);
              name := layerName category place_name;
              App.category := category;
              layer_color := color |}
    /\ chat (fst (renderData features place_name now st)) = chat st
    /\ match snd (renderData features place_name now st) with
       | NoResults => False
       | Rendered p s =>
           n = length features
           /\ p = length (flat_map (marker_for category color) features)
           /\ p + s = length features
           /\ synced_or_not st (fst (renderData features place_name now st)) true
       | Aborted msg =>
           (exists bad, nth_error features n = Some bad /\ ringless bad = true)
           /\ synced_or_not st (fst (renderData features place_name now st)) false
       end.
Proof.
  intros features category color. unfold renderData, features.
  fold features. fold category. fold color.
  match goal with
  | |- context [place_features ?i ?c ?k ?xs ?p] =>
      destruct (place_features_prefix i c k (layers st) xs _ p eq_refl)
        as (n & Hn & Hres & Hst & Hpc & Hsum & Hend);
      destruct (place_features i c k xs p) as [p' [msg|]]
  end; cbn [fst snd] in *; exists n;
    cbn [layers chat set_layers updateLegend set_legend];
    rewrite Hst; unfold push_markers; cbn [markers name App.category layer_color app];
    (split; [exact Hn|]; split; [exact Hres|]; split; [reflexivity|];
     split; [reflexivity|]).
  - split; [exact Hend|]. unfold synced_or_not. reflexivity.
  - subst n. rewrite firstn_all in *. cbn [pointCount skippedCount] in *.
    repeat split; try lia.
Qed.

(** *** What a rendering keeps and counts *)

(** A rendering, finished or cut short, touches one identifier only: under
    every other identifier the store holds what it held, and the layers
    that were there keep their order; the new identifier goes last unless
    it was there already. *)
Theorem renderData_keeps_others features place_name now st :
  let id := layerId (detectedCategory features) place_name now in
  let st' := render_and_report features place_name now st in
  (forall id', id' <> id -> obj_get (layers st') id' = obj_get (layers st) id')
  /\ (obj_keys (layers st') = obj_keys (layers st)
      \/ obj_keys (layers st') = obj_keys (layers st) ++ [id]).
Proof.
  intros id st'.
  assert (H : layers st' = layers st \/ exists l, layers st' = obj_set (layers st) id l).
  { subst st'. unfold render_and_report.
    destruct features as [|f fs]; [now left|]. right.
    destruct (renderData_writes f fs place_name now st) as (l & Hl & _).
    exists l. destruct (renderData (f :: fs) place_name now st) as [st1 [| |]];
      exact Hl. }
  destruct H as [->|[l ->]]; split; auto.
  - intros id' Hne. rewrite obj_get_set.
    destruct (String.eqb_spec id id'); [congruence|reflexivity].
  - rewrite obj_keys_set. destruct (obj_get (layers st) id); auto.
Qed.

Lemma renderData_keeps_others_witness :
  obj_get
    (layers (render_and_report two_museums "Barcelona" 1700000000001
               (render_and_report three_of_five "Paris" 1700000000000 loaded_page)))
    "cafe_Paris_1700000000000"
  = obj_get
      (layers (render_and_report three_of_five "Paris" 1700000000000 loaded_page))
      "cafe_Paris_1700000000000".
Proof.
  apply (proj1 (renderData_keeps_others two_museums "Barcelona" 1700000000001
                  (render_and_report three_of_five "Paris" 1700000000000
                     loaded_page))).
  discriminate.
Defined.

Lemma resolvable_marker_for cat col f :
  resolvable f = true ->
  length (marker_for cat col f) = if placeable f then 1 else 0.
Proof.
  unfold resolvable, ringless, marker_for, placeable.
  destruct (geometry f) as [[c|cs|cs|cs|rings|polygons|]|]; try reflexivity.
  - destruct rings; [discriminate|reflexivity].
  - destruct polygons as [|[|ring rings] polygons]; try discriminate.
    reflexivity.
Qed.

Lemma resolvable_markers_length cat col fs :
  forallb resolvable fs = true ->
  length (flat_map (marker_for cat col) fs) = length (filter placeable fs)
  /\ length (filter placeable fs)
     + length (filter (fun f => negb (placeable f)) fs) = length fs.
Proof.
  induction fs as [|x xs IH]; [now split|].
  cbn [forallb]. intros [Hx Hxs]%andb_true_iff.
  destruct (IH Hxs) as [IH1 IH2].
  cbn [flat_map filter]. rewrite length_app, (resolvable_marker_for _ _ _ Hx), IH1.
  destruct (placeable x); cbn [negb length]; split; lia.
Qed.

(** When a rendering gets to its end, the count of placed features is the
    number of features with a Point, Polygon or MultiPolygon geometry, the
    count of skipped ones is the number of all others, and the layer found
    under the new identifier has as many markers as were counted placed. *)
Theorem renderData_counts features place_name now st st' p s :
  renderData features place_name now st = (st', Rendered p s) ->
  p = length (filter placeable features)
  /\ s = length (filter (fun f => negb (placeable f)) features)
  /\ p + s = length features
  /\ exists l,
       obj_get (layers st')
         (layerId (detectedCategory features) place_name now) = Some l
       /\ length (markers l) = p.
Proof.
  intros H. destruct features as [|f fs]; [discriminate|].
  destruct (renderData_prefix f fs place_name now st)
    as (n & _ & Hres & Hl & _ & Hend).
  rewrite H in Hl, Hend. cbn [fst snd] in Hl, Hend.
  destruct Hend as (-> & Hp & Hsum & _). rewrite firstn_all in *.
  destruct (resolvable_markers_length
              (detectedCategory (f :: fs))
              (category_color (detectedCategory (f :: fs))) (f :: fs) Hres)
    as [Hm Hall].
  repeat split; try lia.
  eexists. rewrite Hl, obj_get_set_same. split; [reflexivity|].
  cbn [markers]. lia.
Qed.

Lemma renderData_counts_witness :
  3 = length (filter placeable three_of_five).
Proof.
  refine (proj1 (renderData_counts three_of_five "Paris" 1700000000000
                   loaded_page _ 3 2 _)).
  reflexivity.
Defined.

(** *** Renderings that are cut short *)

Lemma getCentroid_either g :
  let ringless_geometry :=
    g = Polygon [] \/ g = MultiPolygon []
    \/ exists polygons, g = MultiPolygon ([] :: polygons) in
  (ringless_geometry /\ exists msg, getCentroid g = Throw msg)
  \/ (~ ringless_geometry /\ exists r, getCentroid g = Return r).
Proof.
  cbn zeta.
  destruct g as [c|cs|cs|cs|rings|polygons|];
    try (right; split;
         [intros [H|[H|[? H]]]; discriminate H | eexists; reflexivity]).
  - destruct rings as [|ring rings].
    + left. split; [now left | eexists; reflexivity].
    + right. split;
        [intros [H|[H|[? H]]]; discriminate H | eexists; reflexivity].
  - destruct polygons as [|[|ring rings] polygons].
    + left. split; [now right; left | eexists; reflexivity].
    + left. split; [right; right; eauto | eexists; reflexivity].
    + right. split;
        [intros [H|[H|[? H]]]; discriminate H | eexists; reflexivity].
Qed.

(** [getCentroid] throws exactly on a Polygon without any ring, a
    MultiPolygon without any polygon and a MultiPolygon whose first polygon
    has no ring; on every other geometry it returns, a coordinate or
    null. *)
Theorem getCentroid_throws_iff g :
  ((exists msg, getCentroid g = Throw msg)
   <-> g = Polygon [] \/ g = MultiPolygon []
       \/ exists polygons, g = MultiPolygon ([] :: polygons))
  /\ ((exists r, getCentroid g = Return r)
      <-> ~ (g = Polygon [] \/ g = MultiPolygon []
             \/ exists polygons, g = MultiPolygon ([] :: polygons))).
Proof.
  destruct (getCentroid_either g) as [[Hp [msg Hm]]|[Hn [r Hr]]];
    split; split; intros H; eauto.
  - destruct H as [r Hr]. congruence.
  - contradiction.
  - destruct H as [msg Hm]. congruence.
  - contradiction.
Qed.

(** A rendering that is cut short still leaves its layer in the store, with
    the markers of the features before the one that threw; the legend is
    not brought up to date, and the chat gets the error message. *)
Theorem renderData_cut_short features place_name now st msg :
  snd (renderData features place_name now st) = Aborted msg ->
  let category := detectedCategory features in
  let st' := render_and_report features place_name now st in
  exists before bad after,
    features = before ++ bad :: after
    /\ forallb resolvable before = true
    /\ ringless bad = true
    /\ layers st'
       = obj_set (layers st) (layerId category place_name now)
           {| markers :=
                flat_map (marker_for category (category_color category)) before;
              name := layerName category place_name;
              App.category := category;
              layer_color := category_color category |}
    /\ legend st' = legend st
    /\ chat st' = chat st ++ [("Agent: Error: " ++ msg ++ " ❌")%string].
Proof.
  intros H category st'. subst st'. unfold render_and_report.
  destruct features as [|f fs]; [discriminate|].
  destruct (renderData_prefix f fs place_name now st)
    as (n & Hn & Hres & Hl & Hc & Hend).
  destruct (renderData (f :: fs) place_name now st) as [st1 r].
  cbn [fst snd] in *. subst r.
  destruct Hend as [(bad & Hbad & Hr) Hleg].
  destruct (nth_error_split _ _ Hbad) as (before & after & Hsplit & Hlen).
  assert (Hfirst : firstn n (f :: fs) = before).
  { rewrite Hsplit, <- Hlen, firstn_app, firstn_all, Nat.sub_diag.
    cbn. apply app_nil_r. }
  rewrite Hfirst in *.
  exists before, bad, after.
  cbn [layers legend chat addMessage].
  repeat split; auto. now rewrite Hc.
Qed.

Lemma renderData_cut_short_witness :
  exists before bad after,
    three_of_five ++ [no_ring_polygon] = before ++ bad :: after
    /\ forallb resolvable before = true
    /\ ringless bad = true
    /\ layers (render_and_report (three_of_five ++ [no_ring_polygon]) "Paris"
                 1700000000000 loaded_page)
       = obj_set (layers loaded_page) (layerId "cafe" "Paris" 1700000000000)
           {| markers := flat_map (marker_for "cafe" (category_color "cafe")) before;
              name := layerName "cafe" "Paris";
              App.category := "cafe";
              layer_color := category_color "cafe" |}
    /\ legend (render_and_report (three_of_five ++ [no_ring_polygon]) "Paris"
                 1700000000000 loaded_page)
       = legend loaded_page
    /\ chat (render_and_report (three_of_five ++ [no_ring_polygon]) "Paris"
               1700000000000 loaded_page)
       = chat loaded_page
         ++ [("Agent: Error: "
              ++ "Cannot read properties of undefined (reading 'forEach')"
              ++ " ❌")%string].
Proof.
  apply (renderData_cut_short (three_of_five ++ [no_ring_polygon]) "Paris"
           1700000000000 loaded_page
           "Cannot read properties of undefined (reading 'forEach')").
  reflexivity.
Defined.

(** An empty result set changes neither the layers nor the legend; the
    chat gets "No results found." from [renderData] and then "Found 0
    results" from the send handler. *)
Theorem render_empty place_name now st :
  let st' := render_and_report [] place_name now st in
  layers st' = layers st
  /\ legend st' = legend st
  /\ chat st'
     = chat st ++ ["Agent: No results found."; "Agent: Found 0 results ✅"].
Proof.
  cbn. repeat split. now rewrite <- app_assoc.
Qed.

(** *** What holds of the store at all times *)

Lemma handle_keeps_store e st :
  NoDup (obj_keys (layers st)) /\ Forall entry_ok (layers st) ->
  NoDup (obj_keys (layers (handle e st)))
  /\ Forall entry_ok (layers (handle e st)).
Proof.
  intros [Hnd Hok].
  destruct e as [|id|c|features place_name now]; cbn [handle].
  - cbn. split; constructor.
  - unfold removeLayer. destruct (obj_get (layers st) id); [|now split].
    cbn [layers updateLegend set_legend set_layers].
    rewrite obj_delete_filter.
    split; [now apply filter_NoDup_keys | now apply filter_Forall].
  - unfold removeCategoryLayers.
    cbn [layers updateLegend set_legend set_layers].
    rewrite fold_delete_filter.
    split; [now apply filter_NoDup_keys | now apply filter_Forall].
  - unfold render_and_report. destruct features as [|f fs]; [now split|].
    destruct (renderData_prefix f fs place_name now st)
      as (n & _ & _ & Hl & _ & _).
    assert (Hlayers : layers
              (match renderData (f :: fs) place_name now st with
               | (st', Aborted msg) =>
                   addMessage "Agent" ("Error: " ++ msg ++ " ❌") st'
               | (st', _) =>
                   addMessage "Agent"
                     ("Found " ++ decimal_nat (length (f :: fs)) ++ " results ✅")
                     st'
               end)
            = layers (fst (renderData (f :: fs) place_name now st))).
    { now destruct (renderData (f :: fs) place_name now st) as [st1 [| |]]. }
    rewrite Hlayers, Hl.
    split; [now apply obj_set_NoDup|].
    apply obj_set_Forall; [exact Hok|].
    cbn [entry_ok category name layer_color markers]. repeat split.
    + eauto.
    + apply detect_from_key.
    + apply Forall_forall. intros m (x & _ & Hm)%in_flat_map.
      exact (proj1 (Forall_forall _ _) (marker_for_icon _ _ x) m Hm).
Qed.

(** From the loaded page on, whatever the events and however they end: no
    identifier is held twice; every layer has an identifier and a name
    built from its category, a category of the table with that category's
    colour, and only markers that carry its category and colour; and the
    legend has the items it was loaded with. *)
Theorem run_keeps_store events :
  let st := run events loaded_page in
  NoDup (obj_keys (layers st))
  /\ Forall entry_ok (layers st)
  /\ legend_loaded st.
Proof.
  cbn zeta. unfold run.
  assert (H : forall st,
             (NoDup (obj_keys (layers st)) /\ Forall entry_ok (layers st))
             /\ legend_loaded st ->
             (NoDup (obj_keys (layers (fold_left (fun st e => handle e st) events st)))
              /\ Forall entry_ok (layers (fold_left (fun st e => handle e st) events st)))
             /\ legend_loaded (fold_left (fun st e => handle e st) events st)).
  { induction events as [|e events IH]; intros st [Hs Hl]; [now split|].
    cbn [fold_left]. apply IH. split.
    - now apply handle_keeps_store.
    - now apply legend_loaded_handle. }
  destruct (H loaded_page) as [[H1 H2] H3]; [|now repeat split].
  split; [split; constructor | apply loaded_page_legend_loaded].
Qed.

(** *** The derived counts *)

Lemma existsb_false_filter {A} (f : A -> bool) (l : list A) :
  existsb f l = false -> filter f l = [].
Proof.
  induction l as [|x l IH]; [reflexivity|]. cbn.
  destruct (f x); [discriminate|]. exact IH.
Qed.

Lemma fold_counts_get c (ls : list layer) : forall counts,
  obj_get
    (fold_left
       (fun counts l =>
          obj_set counts (category l)
            (count_or_0 counts (category l) + length (markers l)))
       ls counts) c
  = if existsb (fun l => (category l =? c)%string) ls
    then Some (count_or_0 counts c
               + list_sum
                   (map (fun l => length (markers l))
                      (filter (fun l => (category l =? c)%string) ls)))
    else obj_get counts c.
Proof.
  induction ls as [|l ls IH]; intros counts; cbn [fold_left existsb filter].
  - reflexivity.
  - rewrite IH, count_or_0_set, obj_get_set.
    destruct (String.eqb_spec (category l) c) as [E|_]; cbn [orb].
    + rewrite E. unfold list_sum. cbn [map fold_right].
      destruct (existsb (fun l0 => (category l0 =? c)%string) ls) eqn:Ex;
        [f_equal; lia|].
      rewrite (existsb_false_filter _ _ Ex). cbn. f_equal. lia.
    + reflexivity.
Qed.

(** The counts of [updateLegend] have a key for exactly the categories that
    some layer has, a layer without markers included, and under it the
    number of markers over all layers of that category. *)
Theorem categoryCounts_keys ls c :
  obj_get (categoryCounts ls) c
  = if existsb (fun l => (category l =? c)%string) (obj_values ls)
    then Some (total_markers c ls)
    else None.
Proof.
  unfold categoryCounts, total_markers. rewrite fold_counts_get. reflexivity.
Qed.

Lemma sum_one_key (x : string) (n : nat) (ks : list string) :
  NoDup ks ->
  list_sum (map (fun k => if (x =? k)%string then n else 0) ks)
  = if existsb (String.eqb x) ks then n else 0.
Proof.
  unfold list_sum.
  induction ks as [|k ks IH]; intros Hnd; [reflexivity|].
  inversion Hnd as [|? ? Hn Hnd']; subst. cbn [map fold_right existsb].
  rewrite (IH Hnd').
  destruct (String.eqb_spec x k) as [->|]; cbn [orb]; [|reflexivity].
  destruct (existsb (String.eqb k) ks) eqn:E; [|lia].
  apply existsb_exists in E as (k' & Hin & ->%String.eqb_eq). contradiction.
Qed.

Lemma sum_over_keys (ks : list string) (ls : list layer) :
  NoDup ks ->
  list_sum
    (map (fun k =>
            list_sum (map (fun l => length (markers l))
                        (filter (fun l => (category l =? k)%string) ls))) ks)
  = list_sum
      (map (fun l => length (markers l))
         (filter (fun l => existsb (String.eqb (category l)) ks) ls)).
Proof.
  intros Hnd. induction ls as [|l ls IH].
  - cbn. induction ks; [reflexivity|]. cbn. inversion Hnd; subst. auto.
  - cbn [filter].
    transitivity
      (list_sum (map (fun k => if (category l =? k)%string
                               then length (markers l) else 0) ks)
       + list_sum
           (map (fun k =>
                   list_sum (map (fun l => length (markers l))
                               (filter (fun l => (category l =? k)%string) ls))) ks)).
    + clear. unfold list_sum. induction ks as [|k ks IHk]; [reflexivity|].
      cbn [map fold_right]. rewrite IHk.
      destruct (category l =? k)%string; cbn [map fold_right]; lia.
    + rewrite IH, (sum_one_key _ _ _ Hnd).
      destruct (existsb _ ks); unfold list_sum; cbn [map fold_right]; lia.
Qed.

(** With the legend in step, the counts it shows add up to the number of
    markers in the layers of every category but "poi"; the markers of "poi"
    layers are shown nowhere. *)
Theorem legend_total st :
  synced st ->
  Forall entry_ok (layers st) ->
  list_sum (map item_count (legend st)) + total_markers "poi" (layers st)
  = marker_count (layers st).
Proof.
  intros Hs Hok. rewrite Hs. unfold expected_legend. rewrite map_map.
  cbn [item_count].
  set (ks := filter (fun k => negb (k =? "poi")%string) (obj_keys CATEGORIES)).
  assert (Hks : NoDup (ks ++ ["poi"])).
  { subst ks. vm_compute. repeat constructor; cbn; intuition discriminate. }
  transitivity
    (list_sum (map (fun k => total_markers k (layers st)) (ks ++ ["poi"]))).
  { rewrite map_app, list_sum_app. cbn [map list_sum fold_right].
    rewrite Nat.add_0_r. subst ks. reflexivity. }
  unfold total_markers. rewrite (sum_over_keys _ _ Hks).
  unfold marker_count. f_equal. f_equal.
  apply forallb_filter_id, forallb_forall. intros l Hl.
  apply in_map_iff in Hl as ([id l'] & <- & Hin).
  rewrite Forall_forall in Hok. destruct (Hok _ Hin) as (_ & Hkey & _).
  cbn [snd]. apply existsb_exists. exists (category l').
  split; [exact Hkey | apply String.eqb_refl].
Qed.

Lemma legend_total_witness :
  let st := render_and_report
              [point_feature 2.125 41.375 [("building", JStr "yes")]] "Paris"
              1700000000002
              (render_and_report three_of_five "Paris" 1700000000000 loaded_page) in
  list_sum (map item_count (legend st)) + total_markers "poi" (layers st)
  = marker_count (layers st).
Proof.
  intros st. apply legend_total.
  - reflexivity.
  - repeat constructor; try (exists "Paris"; eexists; split; reflexivity);
      cbn; tauto.
Defined.

End StoreMore.

(** ** Placeholder substitution and popup content *)

Module PageFacts.
Import Js Value Taxonomy Geometry App Page NormalizeFacts.

(** *** [replaceAll] *)

Lemma includes_false_startsWith p s : includes p s = false -> startsWith p s = false.
Proof. destruct s; cbn [includes]; now intros [H _]%orb_false_iff. Qed.

Lemma replaceAll_absent pat rep fuel : forall s,
  includes pat s = false -> replaceAll_from fuel pat rep s = s.
Proof.
  induction fuel as [|fuel IH]; intros s H; [reflexivity|].
  cbn [replaceAll_from].
  pose proof (includes_false_startsWith _ _ H) as Hs. unfold startsWith in Hs.
  destruct (strip_prefix pat s); [discriminate|].
  destruct s as [|c s]; [reflexivity|]. f_equal. apply IH.
  cbn [includes] in H. now apply orb_false_iff in H.
Qed.

(** A prefix without the first code unit of [rep] that the result starts
    with was there before the replacement. *)
Lemma replaceAll_startsWith pat h rep q : forall fuel s,
  existsb (N.eqb h) q = false ->
  startsWith q (replaceAll_from fuel pat (h :: rep) s) = true ->
  startsWith q s = true.
Proof.
  unfold startsWith.
  induction q as [|a q IH]; intros fuel s Hq; [reflexivity|].
  cbn [existsb] in Hq. apply orb_false_iff in Hq as [Ha Hq].
  destruct fuel as [|fuel]; [exact (fun H => H)|].
  cbn [replaceAll_from].
  destruct (strip_prefix pat s) as [t|].
  - cbn [app strip_prefix]. rewrite N.eqb_sym, Ha. discriminate.
  - destruct s as [|c s]; [exact (fun H => H)|].
    cbn [strip_prefix]. destruct (a =? c)%N; [|discriminate].
    now apply IH.
Qed.

Lemma includes_skip a pat rep u :
  existsb (N.eqb a) rep = false ->
  includes (a :: pat) (rep ++ u) = includes (a :: pat) u.
Proof.
  induction rep as [|x rep IH]; [reflexivity|].
  cbn [existsb]. intros [Hx Hr]%orb_false_iff.
  cbn [app includes]. rewrite (IH Hr).
  unfold startsWith. cbn [strip_prefix]. now rewrite Hx.
Qed.

Lemma replaceAll_gone a pat h rep fuel : forall s,
  existsb (N.eqb h) (a :: pat) = false ->
  existsb (N.eqb a) (h :: rep) = false ->
  length s < fuel ->
  includes (a :: pat) (replaceAll_from fuel (a :: pat) (h :: rep) s) = false.
Proof.
  induction fuel as [|fuel IH]; intros s Hh Ha Hlen; [lia|].
  cbn [replaceAll_from].
  destruct (strip_prefix (a :: pat) s) as [t|] eqn:E.
  - rewrite (includes_skip a pat (h :: rep) _ Ha). apply IH; auto.
    apply strip_prefix_Some in E. subst s. rewrite length_app in Hlen.
    cbn [length] in Hlen. lia.
  - destruct s as [|c s]; [reflexivity|].
    cbn [includes]. apply orb_false_iff. split.
    + destruct (startsWith (a :: pat)
                  (c :: replaceAll_from fuel (a :: pat) (h :: rep) s)) eqn:Es;
        [|reflexivity].
      assert (Hs : startsWith (a :: pat) (c :: s) = true).
      { apply (replaceAll_startsWith (a :: pat) h rep (a :: pat) (S fuel));
          [exact Hh|].
        cbn [replaceAll_from]. rewrite E. exact Es. }
      unfold startsWith in Hs. rewrite E in Hs. discriminate.
    + apply IH; auto. cbn [length] in Hlen. lia.
Qed.

(** Once the bounding box is filled in, no [{{bbox}}] is left in the
    query, for a box text that has no [{] in it and starts with a code unit
    that does not occur in [{{bbox}}], as every text of numbers and commas
    does.  The box text has no [$] either: [replaceAll] would read one as
    the start of a replacement pattern. *)
Theorem fill_bbox_complete query h bbox :
  existsb (N.eqb h) BBOX_PLACEHOLDER = false ->
  existsb (N.eqb 123%N) (h :: bbox) = false ->
  existsb (N.eqb 36%N) (h :: bbox) = false ->
  includes BBOX_PLACEHOLDER (fill_bbox query (h :: bbox)) = false.
Proof.
  intros Hh Ha _. unfold fill_bbox, replaceAll.
  change BBOX_PLACEHOLDER with (123%N :: str "{bbox}}") in *.
  apply replaceAll_gone; auto.
Qed.

Lemma fill_bbox_complete_witness :
  includes BBOX_PLACEHOLDER
    (fill_bbox (str "(node[amenity=cafe]({{bbox}});way[amenity=cafe]({{bbox}}););out body;")
       (str "41.3,2.0,41.5,2.3")) = false.
Proof.
  apply (fill_bbox_complete _ 52%N (str "1.3,2.0,41.5,2.3")); reflexivity.
Defined.

(** A query without [{{bbox}}] is passed on as it is. *)
Theorem fill_bbox_absent query bbox :
  includes BBOX_PLACEHOLDER query = false -> fill_bbox query bbox = query.
Proof. intros H. now apply replaceAll_absent. Qed.

Lemma fill_bbox_absent_witness :
  fill_bbox (str "node(1);out body;") (str "41.3,2.0,41.5,2.3")
  = str "node(1);out body;".
Proof. apply fill_bbox_absent. reflexivity. Defined.

(** *** [cleanTags] *)

Lemma In_firstn {A} n (l : list A) x : In x (firstn n l) -> In x l.
Proof.
  intros H. rewrite <- (firstn_skipn n l). apply in_or_app. now left.
Qed.

Lemma prefix_app p k :
  String.prefix p k = true <-> exists rest, k = (p ++ rest)%string.
Proof.
  revert k. induction p as [|a p IH]; intros k.
  - split; [cbn; eauto|]. now destruct k.
  - destruct k as [|b k]; cbn;
      [split; [discriminate|intros [r H]; discriminate]|].
    destruct (Ascii.ascii_dec a b) as [->|Hne].
    + rewrite IH. split; intros [r H]; exists r; congruence.
    + split; [discriminate|]. intros [r H]. congruence.
Qed.

(** The filter of [cleanTags] drops a key exactly when it is one of the
    five keys listed or starts with one of the seven prefixes listed. *)
Lemma shown_key_false k :
  shown_key k = false
  <-> In k skipKeys
      \/ exists prefix rest, In prefix skipPrefixes /\ k = (prefix ++ rest)%string.
Proof.
  unfold shown_key. rewrite andb_false_iff, !negb_false_iff, !existsb_exists.
  split; intros [H|H].
  - left. destruct H as (x & Hx & ->%String.eqb_eq). exact Hx.
  - right. destruct H as (p & Hp & [r Hr]%prefix_app). eauto.
  - left. exists k. split; [exact H | apply String.eqb_refl].
  - right. destruct H as (p & r & Hp & Hr). exists p. split; [exact Hp|].
    apply prefix_app. eauto.
Qed.

Lemma Object_entries_filter tags :
  filter (fun e => shown_key (entry_key e)) (Object_entries tags)
  = Object_entries (filter (fun e => shown_key (fst e)) tags).
Proof.
  unfold Object_entries. induction tags as [|[k v] tags IH]; [reflexivity|].
  cbn [map filter fst snd entry_key]. destruct (shown_key k); cbn [map];
    now rewrite IH.
Qed.

(** The popup shows at most three tags, each a tag of the feature whose key
    is neither one of the names, [created_by] or [fixme] nor starts with
    [addr:], [contact:], [source:], [attribution:], [@], [wikidata] or
    [wikipedia]; with three or fewer such tags it shows them all, in their
    order. *)
Theorem cleanTags_shown tags :
  length (cleanTags tags) <= 3
  /\ (forall e,
        In e (cleanTags tags) ->
        In (entry_key e, entry_value e) tags
        /\ ~ In (entry_key e) skipKeys
        /\ forall prefix rest,
             In prefix skipPrefixes -> entry_key e <> (prefix ++ rest)%string)
  /\ (length (filter (fun e => shown_key (fst e)) tags) <= 3 ->
      cleanTags tags
      = Object_entries (filter (fun e => shown_key (fst e)) tags)).
Proof.
  unfold cleanTags. split; [|split].
  - rewrite length_firstn. lia.
  - intros e H. apply In_firstn, filter_In in H as [Hin Hk].
    split; [|split].
    + unfold Object_entries in Hin.
      apply in_map_iff in Hin as ([k v] & <- & Hin). exact Hin.
    + intros Hs. assert (shown_key (entry_key e) = false)
        by (apply shown_key_false; left; exact Hs).
      congruence.
    + intros prefix rest Hp Hr.
      assert (shown_key (entry_key e) = false)
        by (apply shown_key_false; right; eauto).
      congruence.
  - intros H. rewrite Object_entries_filter. apply firstn_all2.
    unfold Object_entries. now rewrite length_map.
Qed.

Lemma cleanTags_shown_witness :
  cleanTags (firstn 6 museum)
  = Object_entries (filter (fun e => shown_key (fst e)) (firstn 6 museum)).
Proof.
  apply (proj2 (proj2 (cleanTags_shown (firstn 6 museum)))).
  cbn. lia.
Defined.

(** *** The name of a marker *)

(** The name put on a marker is never empty, undefined or null: it is the
    first of [tags.name], [tags["name:en"]], [tags["name:es"]] and
    [properties.name] that is truthy, and "Unnamed" when none is. *)
Theorem marker_name_truthy f :
  let tags := tags_of (Some f) in
  let candidates :=
    [get tags "name"; get tags "name:en"; get tags "name:es";
     get_opt (properties f) "name"] in
  truthy (marker_name f) = true
  /\ marker_name f
     = match find truthy candidates with
       | Some v => v
       | None => JStr "Unnamed"
       end.
Proof.
  intros tags candidates. subst candidates. unfold marker_name. fold tags.
  unfold or_else. cbn [find].
  destruct (truthy (get tags "name")) eqn:E1;
    [|destruct (truthy (get tags "name:en")) eqn:E2;
      [|destruct (truthy (get tags "name:es")) eqn:E3;
        [|destruct (truthy (get_opt (properties f) "name")) eqn:E4]]];
    repeat (rewrite ?E1, ?E2, ?E3, ?E4; cbv beta iota);
    now split.
Qed.

End PageFacts.
